(** * A query builder over sqlite3 and its two REST resources

  Shallow embedding of

  - [src/api/src/config/database_manager.py]  (class [SQLiteManager]),
  - [src/api/src/routers/user_router.py], [password_router.py],
  - [src/api/src/models/models.py].

  Python objects are a small universe of values, keyword arguments are
  insertion-ordered association lists, exceptions are an error sum, and
  every method of [SQLiteManager] is a computation in a state-and-error
  monad over the manager object.  The sqlite3 driver is an interface
  (a type class); the manager additionally records, in call order, every
  driver call it makes. *)

From Stdlib Require Import ZArith List String Ascii Bool Lia DecimalString.
Import ListNotations.

Local Open Scope string_scope.
Local Open Scope list_scope.

Local Infix "+++" := String.append (at level 60, right associativity).

(* ================================================================== *)
(** ** Python values and the builtins the code relies on               *)
(* ================================================================== *)

Module Py.

(** The Python objects that can reach the query builder. Dictionary
    keys are arbitrary (hashable) values; order is insertion order. *)
#[warnings="-register-all"]
Inductive value : Type :=
| VNone
| VBool (b : bool)
| VInt (z : Z)
| VStr (s : string)
| VList (l : list value)
| VDict (d : list (value * value)).

(** A result row as the driver hands it back: a tuple of column values. *)
Definition row : Type := list value.

(** [**kwargs]: keys are always strings, order is call order. *)
Definition kwargs : Type := list (string * value).

(** sqlite3's own exception classes (all below [sqlite3.Error]). *)
Inductive db_error : Type :=
| OperationalError (msg : string)
| IntegrityError (msg : string)
| InterfaceError (msg : string)
| ProgrammingError (msg : string).

Inductive exn : Type :=
| ValueError (msg : string)
| TypeError (msg : string)
| IndexError (msg : string)
| ValidationError
| HTTPException (status_code : Z) (detail : string)
| Sqlite3Error (e : db_error).

Inductive result (A : Type) : Type :=
| Ok (a : A)
| Raise (e : exn).
Arguments Ok {A} a.
Arguments Raise {A} e.

(** [bool(v)], as used by [if not v]. *)
Definition truthy (v : value) : bool :=
  match v with
  | VNone => false
  | VBool b => b
  | VInt z => negb (Z.eqb z 0)
  | VStr s => negb (String.eqb s "")
  | VList l => match l with [] => false | _ :: _ => true end
  | VDict d => match d with [] => false | _ :: _ => true end
  end.

(** [isinstance(v, dict)]. *)
Definition isinstance_dict (v : value) : bool :=
  match v with VDict _ => true | _ => false end.

(** [d.keys()] and [d.values()] of a dictionary object. *)
Definition dict_keys (v : value) : list value :=
  match v with VDict d => map fst d | _ => [] end.

Definition dict_values (v : value) : list value :=
  match v with VDict d => map snd d | _ => [] end.

(** [kwargs.keys()], [kwargs.values()], [bool(kwargs)]. *)
Definition keys (kw : kwargs) : list string := map fst kw.
Definition values (kw : kwargs) : list value := map snd kw.
Definition nonempty {A : Type} (l : list A) : bool :=
  match l with [] => false | _ :: _ => true end.

Fixpoint get (k : string) (kw : kwargs) : option value :=
  match kw with
  | [] => None
  | (k', v) :: kw' => if String.eqb k k' then Some v else get k kw'
  end.

Definition remove (k : string) (kw : kwargs) : kwargs :=
  filter (fun kv => negb (String.eqb k (fst kv))) kw.

(** [kwargs.pop(k, default)]: the value bound to [k] (or the default)
    together with the dictionary without [k]; the other keys keep
    their order. *)
Definition pop (k : string) (default : value) (kw : kwargs)
  : value * kwargs :=
  (match get k kw with Some v => v | None => default end, remove k kw).

(** A keyword dictionary never binds a key twice. *)
Fixpoint unique (ks : list string) : bool :=
  match ks with
  | [] => true
  | k :: ks' => negb (existsb (String.eqb k) ks') && unique ks'
  end.

Definition well_formed (kw : kwargs) : Prop := unique (keys kw) = true.

(** The one-character strings of a string (iterating a [str]). *)
Fixpoint chars (s : string) : list string :=
  match s with
  | EmptyString => []
  | String c s' => String c EmptyString :: chars s'
  end.

Fixpoint all_str (l : list value) : option (list string) :=
  match l with
  | [] => Some []
  | VStr s :: l' =>
      match all_str l' with Some ss => Some (s :: ss) | None => None end
  | _ :: _ => None
  end.

(** [sep.join(v)]: [v] must be an iterable of strings. *)
Definition join (sep : string) (v : value) : result string :=
  match v with
  | VList l =>
      match all_str l with
      | Some ss => Ok (String.concat sep ss)
      | None => Raise (TypeError "sequence item: expected str instance")
      end
  | VDict d =>
      match all_str (map fst d) with
      | Some ss => Ok (String.concat sep ss)
      | None => Raise (TypeError "sequence item: expected str instance")
      end
  | VStr s => Ok (String.concat sep (chars s))
  | _ => Raise (TypeError "can only join an iterable")
  end.

(** [str(v)] on objects that are not strings is left to the
    interpreter. *)
Class Builtins : Type := { str : value -> string }.

(** [f"{v}"]. *)
Definition format `{Builtins} (v : value) : string :=
  match v with VStr s => s | _ => str v end.

(** [seq[i]] for a list or tuple and a non-negative index. *)
Definition subscript {A : Type} (l : list A) (i : nat) : result A :=
  match nth_error l i with
  | Some a => Ok a
  | None => Raise (IndexError "index out of range")
  end.

End Py.
Import Py.

(* ================================================================== *)
(** ** The sqlite3 driver, as the manager uses it                      *)
(* ================================================================== *)

(** [conn] is the state behind [self.conn] and [self.cur] together.
    [cur_execute] may fail, and then only with one of sqlite3's own
    errors; the other calls are total. *)
Class Sqlite3 (conn : Type) : Type := {
  sqlite3_connect : string -> conn;
  cur_execute : string -> list value -> conn -> option db_error * conn;
  cur_fetchall : conn -> list row;
  cur_lastrowid : conn -> value;
  cur_rowcount : conn -> Z;
  conn_rollback : conn -> conn;
  conn_commit : conn -> conn
}.

(** A call made on the driver. *)
Inductive call : Type :=
| Execute (query : string) (params : list value)
| Fetchall
| Rollback
| Commit.

(** The statement texts and the bound parameters of a call history. *)
Fixpoint statements (cs : list call) : list string :=
  match cs with
  | [] => []
  | Execute query _ :: cs' => query :: statements cs'
  | _ :: cs' => statements cs'
  end.

Fixpoint bound_params (cs : list call) : list (list value) :=
  match cs with
  | [] => []
  | Execute _ params :: cs' => params :: bound_params cs'
  | _ :: cs' => bound_params cs'
  end.

(* ================================================================== *)
(** ** database_manager.py                                             *)
(* ================================================================== *)

Module database_manager.
Section SQLiteManager.

Context {conn : Type} `{Sqlite3 conn} `{Builtins}.

(** The manager object; [calls] is the history of driver calls. *)
Record SQLiteManager : Type := {
  db_name : string;
  self_conn : conn;
  calls : list call
}.

Definition M (A : Type) : Type :=
  SQLiteManager -> result A * SQLiteManager.

Definition ret {A : Type} (a : A) : M A := fun self => (Ok a, self).

Definition raise {A : Type} (e : exn) : M A :=
  fun self => (Raise e, self).

Definition bind {A B : Type} (m : M A) (k : A -> M B) : M B :=
  fun self =>
    match m self with
    | (Ok a, self') => k a self'
    | (Raise e, self') => (Raise e, self')
    end.

Definition lift {A : Type} (r : result A) : M A :=
  fun self => (r, self).

(** [try: m  except Exception as e: handler e]. *)
Definition try_except {A : Type} (m : M A) (handler : exn -> M A) : M A :=
  fun self =>
    match m self with
    | (Ok a, self') => (Ok a, self')
    | (Raise e, self') => handler e self'
    end.

Definition on_driver (c : call) (k : conn -> conn) (self : SQLiteManager)
  : SQLiteManager :=
  {| db_name := db_name self;
     self_conn := k (self_conn self);
     calls := calls self ++ [c] |}.

(** [self.cur.execute(query, params)] *)
Definition execute (query : string) (params : list value) : M unit :=
  fun self =>
    let r := cur_execute query params (self_conn self) in
    let self' := on_driver (Execute query params) (fun _ => snd r) self in
    match fst r with
    | None => (Ok tt, self')
    | Some e => (Raise (Sqlite3Error e), self')
    end.

(** [self.cur.fetchall()] *)
Definition fetchall : M (list row) :=
  fun self => (Ok (cur_fetchall (self_conn self)),
               on_driver Fetchall (fun c => c) self).

(** [self.cur.lastrowid], [self.cur.rowcount]: attribute reads. *)
Definition lastrowid : M value :=
  fun self => (Ok (cur_lastrowid (self_conn self)), self).

Definition rowcount : M Z :=
  fun self => (Ok (cur_rowcount (self_conn self)), self).

(** [self.conn.rollback()], [self.conn.commit()] *)
Definition rollback : M unit :=
  fun self => (Ok tt, on_driver Rollback conn_rollback self).

Definition commit : M unit :=
  fun self => (Ok tt, on_driver Commit conn_commit self).


Notation "x <- m ;; k" := (bind m (fun x => k))
  (at level 61, m at next level, right associativity).
Notation "m ;; k" := (bind m (fun _ => k))
  (at level 61, right associativity).

(** The messages of the [ValueError]s raised by the four operations. *)
Definition msg_select_table : string :=
  "O argumento 'table' é obrigatório para a função select.".
Definition msg_insert_table : string :=
  "O argumento 'table' é obrigatório para a função insert.".
Definition msg_insert_no_data : string :=
  "Nenhum dado fornecido para inserção. (Ex: nome='Alice')".
Definition msg_update_table : string :=
  "O argumento 'table' é obrigatório para a função update.".
Definition msg_update_data : string :=
  "O argumento 'data' (um dict) é obrigatório " +++
  "para informar o que deve ser alterado.".
Definition msg_update_unsafe : string :=
  "UPDATE sem cláusula WHERE não é permitido por segurança. " +++
  "Forneça ao menos um filtro (ex: id=1).".
Definition msg_delete_table : string :=
  "O argumento 'table' é obrigatório para a função delete.".
Definition msg_delete_unsafe : string :=
  "DELETE sem cláusula WHERE não é permitido por segurança. " +++
  "Forneça ao menos um filtro (ex: id=1).".

(** [SQLiteManager(db_name)]; the standard library always has sqlite3,
    so the [ImportError] branch is not taken. *)
Definition __init__ (db_name : string) : SQLiteManager :=
  {| db_name := db_name;
     self_conn := sqlite3_connect db_name;
     calls := [] |}.

Definition __enter__ (self : SQLiteManager) : SQLiteManager := self.

(** [__exit__(exc_type, exc_value, traceback)]; [exc] is [None] when the
    block ended normally. The method returns [None], so an exception of
    the block is never suppressed. *)
Definition __exit__ (exc : option exn) : M unit :=
  (match exc with
   | Some _ => rollback
   | None => ret tt
   end) ;;
  commit.

(** The loop of [select] over [kwargs.items()], with its two
    accumulators. *)
Definition select_loop (kw : kwargs) : list string * list value :=
  fold_left
    (fun (acc : list string * list value) (item : string * value) =>
       let (where_clauses, params) := acc in
       let (key, value) := item in
       (where_clauses ++ [key +++ " = ?"], params ++ [value]))
    kw ([], []).

Definition select (kw : kwargs) : M (list row) :=
  let (table, kw) := pop "table" VNone kw in
  let (options, kw) := pop "options" (VList [VStr "*"]) kw in
  if negb (truthy table) then raise (ValueError msg_select_table) else
  cols <- lift (join ", " options) ;;
  let query := "SELECT " +++ cols +++ " FROM " +++ format table in
  let (where_clauses, params) := select_loop kw in
  let query :=
    if nonempty where_clauses
    then query +++ " WHERE " +++ String.concat " AND " where_clauses
    else query in
  execute query params ;;
  fetchall.

Definition insert (kw : kwargs) : M value :=
  let (table, kw) := pop "table" VNone kw in
  if negb (truthy table) then raise (ValueError msg_insert_table) else
  if negb (nonempty kw) then raise (ValueError msg_insert_no_data) else
  let columns := keys kw in
  let values := values kw in
  let cols_sql := String.concat ", " columns in
  let placeholders_sql := String.concat ", " (repeat "?" (List.length values)) in
  let query :=
    "INSERT INTO " +++ format table +++ " (" +++ cols_sql +++
    ") VALUES (" +++ placeholders_sql +++ ")" in
  try_except
    (execute query values ;;
     lastrowid)
    (fun e => rollback ;; raise e).

Definition update (kw : kwargs) : M Z :=
  let (table, kw) := pop "table" VNone kw in
  let (data_to_set, kw) := pop "data" VNone kw in
  if negb (truthy table) then raise (ValueError msg_update_table) else
  if negb (truthy data_to_set) || negb (isinstance_dict data_to_set)
  then raise (ValueError msg_update_data) else
  if negb (nonempty kw) then raise (ValueError msg_update_unsafe) else
  let set_clauses :=
    map (fun key => format key +++ " = ?") (dict_keys data_to_set) in
  let set_sql := String.concat ", " set_clauses in
  let where_clauses := map (fun key => key +++ " = ?") (keys kw) in
  let where_sql := String.concat " AND " where_clauses in
  let params := dict_values data_to_set ++ values kw in
  let query :=
    "UPDATE " +++ format table +++ " SET " +++ set_sql +++
    " WHERE " +++ where_sql in
  try_except
    (execute query params ;;
     rowcount)
    (fun e => rollback ;; raise e).

Definition delete (kw : kwargs) : M Z :=
  let (table, kw) := pop "table" VNone kw in
  if negb (truthy table) then raise (ValueError msg_delete_table) else
  if negb (nonempty kw) then raise (ValueError msg_delete_unsafe) else
  let where_clauses := map (fun key => key +++ " = ?") (keys kw) in
  let where_sql := String.concat " AND " where_clauses in
  let params := values kw in
  let query := "DELETE FROM " +++ format table +++ " WHERE " +++ where_sql in
  try_except
    (execute query params ;;
     rowcount)
    (fun e => rollback ;; raise e).

(** [with mgr as db: body]. [__enter__] hands the manager to the block;
    [__exit__] runs on both exits and, returning [None], lets the
    block's exception propagate. *)
Definition with_ {A : Type} (mgr : SQLiteManager) (body : M A)
  : result A * SQLiteManager :=
  match body (__enter__ mgr) with
  | (Ok a, self) =>
      match __exit__ None self with
      | (Ok _, self') => (Ok a, self')
      | (Raise e', self') => (Raise e', self')
      end
  | (Raise e, self) =>
      match __exit__ (Some e) self with
      | (Ok _, self') => (Raise e, self')
      | (Raise e', self') => (Raise e', self')
      end
  end.

(** The arguments as the operations read them off [kwargs]. *)
Definition table_of (kw : kwargs) : value := fst (pop "table" VNone kw).

Definition options_of (kw : kwargs) : value :=
  fst (pop "options" (VList [VStr "*"]) (remove "table" kw)).

Definition select_filters (kw : kwargs) : kwargs :=
  remove "options" (remove "table" kw).

Definition insert_data (kw : kwargs) : kwargs := remove "table" kw.

Definition data_of (kw : kwargs) : value :=
  fst (pop "data" VNone (remove "table" kw)).

Definition update_filters (kw : kwargs) : kwargs :=
  remove "data" (remove "table" kw).

Definition delete_filters (kw : kwargs) : kwargs := remove "table" kw.

(** [" WHERE k1 = ? AND k2 = ? ..."], nothing without filters. *)
Definition where_text (ks : list string) : string :=
  match ks with
  | [] => ""
  | _ :: _ =>
      " WHERE " +++ String.concat " AND " (map (fun k => k +++ " = ?") ks)
  end.

(** The manager once [cur.execute(query, params)] has returned or
    raised. *)
Definition after_execute (query : string) (params : list value)
  (self : SQLiteManager) : SQLiteManager :=
  on_driver (Execute query params)
    (fun _ => snd (cur_execute query params (self_conn self))) self.

(** The driver calls a computation makes when started on [self]. *)
Definition issued {A : Type} (m : M A) (self : SQLiteManager) : list call :=
  skipn (List.length (calls self)) (calls (snd (m self))).

(** [m], started on [self], first executes [query] with [params], and the
    store rejects it with [e]. *)
Definition rejected_by_store {A : Type} (m : M A) (self : SQLiteManager)
  (query : string) (params : list value) (e : db_error) : Prop :=
  hd_error (issued m self) = Some (Execute query params)
  /\ fst (cur_execute query params (self_conn self)) = Some e.

(** [m] made exactly that one attempt, rolled the connection back and
    raised [e] itself. *)
Definition rolled_back_and_reraised {A : Type} (m : M A)
  (self : SQLiteManager) (query : string) (params : list value)
  (e : db_error) : Prop :=
  fst (m self) = Raise (Sqlite3Error e)
  /\ issued m self = [Execute query params; Rollback]
  /\ self_conn (snd (m self))
     = conn_rollback (snd (cur_execute query params (self_conn self))).

End SQLiteManager.

Arguments SQLiteManager conn : clear implicits.
Arguments M conn : clear implicits.

Notation "x <- m ;; k" := (bind m (fun x => k))
  (at level 61, m at next level, right associativity).
Notation "m ;; k" := (bind m (fun _ => k))
  (at level 61, right associativity).

End database_manager.
Import database_manager.

(* ================================================================== *)
(** ** models.py                                                       *)
(* ================================================================== *)

Module models.

(** Field validation is pydantic's: what it accepts for an [int] and for
    a [str] field is the library's business. *)
Class Pydantic : Type := {
  validate_int : value -> option Z;
  validate_str : value -> option string
}.

Record User : Type := {
  User_id : Z;
  User_name : string;
  User_email : string
}.

Record Password : Type := {
  Password_id : Z;
  Password_user_id : Z;
  Password_password_hash : string
}.

(** [User(id=..., name=..., email=...)] *)
Definition new_User `{Pydantic} (id name email : value) : result User :=
  match validate_int id, validate_str name, validate_str email with
  | Some i, Some n, Some e =>
      Ok {| User_id := i; User_name := n; User_email := e |}
  | _, _, _ => Raise ValidationError
  end.

(** [Password(id=..., password_hash=..., user_id=...)] *)
Definition new_Password `{Pydantic} (id password_hash user_id : value)
  : result Password :=
  match validate_int id, validate_int user_id, validate_str password_hash with
  | Some i, Some u, Some h =>
      Ok {| Password_id := i; Password_user_id := u;
            Password_password_hash := h |}
  | _, _, _ => Raise ValidationError
  end.

End models.
Import models.

(* ================================================================== *)
(** ** user_router.py, password_router.py                              *)
(* ================================================================== *)

Module routers.
Section Routers.

Context {conn : Type} `{Sqlite3 conn} `{Builtins} `{Pydantic}.

(** [os.environ.get('DATABASE', 'src/data/api.db3')], read at import. *)
Variable database : string.

(** A list comprehension whose element expression may raise. *)
Fixpoint comprehension {A B : Type} (f : A -> M conn B) (l : list A)
  : M conn (list B) :=
  match l with
  | [] => ret []
  | a :: l' =>
      b <- f a ;;
      bs <- comprehension f l' ;;
      ret (b :: bs)
  end.

(** [User(id=result[0], name=result[1], email=result[2])] *)
Definition user_of_row (result : row) : M conn User :=
  r0 <- lift (subscript result 0) ;;
  r1 <- lift (subscript result 1) ;;
  r2 <- lift (subscript result 2) ;;
  lift (new_User r0 r1 r2).

(** [Password(id=result[0], password_hash=result[1], user_id=result[2])] *)
Definition password_of_row (result : row) : M conn Password :=
  r0 <- lift (subscript result 0) ;;
  r1 <- lift (subscript result 1) ;;
  r2 <- lift (subscript result 2) ;;
  lift (new_Password r0 r1 r2).

(** [except IndexError: raise HTTPException(status_code=404, detail=...)];
    any other exception is not handled here. *)
Definition except_IndexError {A : Type} (detail : string) (e : exn)
  : M conn A :=
  match e with
  | IndexError _ => raise (HTTPException 404 detail)
  | _ => raise e
  end.

Definition get_users : result (list User) * SQLiteManager conn :=
  with_ (__init__ database)
    (results <- select [("table", VStr "users")] ;;
     comprehension user_of_row results).

Definition get_user (user_id : Z) : result User * SQLiteManager conn :=
  with_ (__init__ database)
    (result <-
       try_except
         (rows <- select [("table", VStr "users"); ("id", VInt user_id)] ;;
          lift (subscript rows 0))
         (except_IndexError "User not found") ;;
     user_of_row result).

Definition get_passwords : result (list Password) * SQLiteManager conn :=
  with_ (__init__ database)
    (results <- select [("table", VStr "passwords")] ;;
     comprehension password_of_row results).

Definition get_password (password_id : Z)
  : result Password * SQLiteManager conn :=
  with_ (__init__ database)
    (result <-
       try_except
         (rows <-
            select [("table", VStr "passwords"); ("id", VInt password_id)] ;;
          lift (subscript rows 0))
         (except_IndexError "password not found") ;;
     password_of_row result).

End Routers.
End routers.
Import routers.

(* ================================================================== *)
(** ** A reference store                                               *)
(* ================================================================== *)

Module RefStore.

(** Modelled from the spec: the relational store behind the driver is
    not part of the repository. What follows is the store the
    specification describes: tables whose rows have a stable positional
    column order with a unique integer identifier [id] first (users(id,
    name, email), passwords(id, password_hash, user_id)), equality
    filters combined with AND, INSERT generating the row identifier.
    The store's own notion of equality between a stored value and a
    bound parameter is left open, except that it decides equality of
    integers. *)
Class SqlEq : Type := {
  sql_eq : value -> value -> bool;
  sql_eq_int : forall a b : Z, sql_eq (VInt a) (VInt b) = Z.eqb a b
}.

(** Modelled from the spec: a table; each stored row is its identifier
    and the values of the remaining columns. *)
Record table : Type := {
  t_name : string;
  t_columns : list string;
  t_rows : list (Z * row)
}.

Definition columns (tb : table) : list string := "id" :: t_columns tb.

Definition physical (r : Z * row) : row := VInt (fst r) :: snd r.

(** Modelled from the spec: one connection; [tables] is what the
    connection sees, [committed] what the last commit left. *)
Record store : Type := {
  committed : list table;
  tables : list table;
  result_set : list row;
  last_id : value;
  row_count : Z
}.

(** The statements the query builder emits, after parsing. *)
Inductive statement : Type :=
| Select (cols : list string) (t : string) (filters : list string)
| Insert (t : string) (cols : list string) (marks : list string)
| Update (t : string) (cols : list string) (filters : list string)
| Delete (t : string) (filters : list string).

(** *** Lexing and parsing of the statement text *)

Definition is_space (c : ascii) : bool := Ascii.eqb c " ".

Definition is_punct (c : ascii) : bool :=
  Ascii.eqb c "(" || Ascii.eqb c ")" || Ascii.eqb c ",".

(** Words are separated by blanks; parentheses and commas are words of
    their own. The first word of the result is the one being read. *)
Fixpoint lex (s : string) : list string :=
  match s with
  | EmptyString => [EmptyString]
  | String c s' =>
      if is_space c then EmptyString :: lex s'
      else if is_punct c
      then EmptyString :: String c EmptyString :: lex s'
      else match lex s' with
           | w :: ws => String c w :: ws
           | [] => [String c EmptyString]
           end
  end.

Definition tokens (s : string) : list string :=
  filter (fun w => negb (String.eqb w "")) (lex s).

(** A word put in front of the first word of a lexed text. *)
Definition glue (w : string) (l : list string) : list string :=
  match l with
  | t :: ts => (w +++ t) :: ts
  | [] => [w]
  end.

(** A text that is empty or begins with a blank, a parenthesis or a
    comma: the word before it ends there. *)
Definition delimited (s : string) : Prop := exists r, lex s = "" :: r.

(** [n1 , n2 , ... nk] as words. *)
Fixpoint commas (ns : list string) : list string :=
  match ns with
  | [] => []
  | [n] => [n]
  | n :: ns' => n :: "," :: commas ns'
  end.

(** [k1 = ? AND k2 = ? ...] as words. *)
Fixpoint conjuncts (ks : list string) : list string :=
  match ks with
  | [] => []
  | [k] => [k; "="; "?"]
  | k :: ks' => k :: "=" :: "?" :: "AND" :: conjuncts ks'
  end.

(** [n1 , n2 , ... nk] followed by the rest. *)
Fixpoint parse_list (ts : list string) : list string * list string :=
  match ts with
  | [] => ([], [])
  | n :: ts1 =>
      match ts1 with
      | sep :: ts2 =>
          if String.eqb sep ","
          then let (ns, rest) := parse_list ts2 in (n :: ns, rest)
          else ([n], ts1)
      | [] => ([n], [])
      end
  end.

(** [k1 = ? sep k2 = ? sep ... kn = ?] followed by the rest. *)
Fixpoint parse_assignments (sep : string) (ts : list string)
  : option (list string * list string) :=
  match ts with
  | k :: eq :: q :: rest =>
      if String.eqb eq "=" && String.eqb q "?" then
        match rest with
        | s :: rest' =>
            if String.eqb s sep then
              match parse_assignments sep rest' with
              | Some (ks, r) => Some (k :: ks, r)
              | None => None
              end
            else Some ([k], rest)
        | [] => Some ([k], [])
        end
      else None
  | _ => None
  end.

Definition parse_where (ts : list string) : option (list string) :=
  match ts with
  | [] => Some []
  | w :: conds =>
      if String.eqb w "WHERE" then
        match parse_assignments "AND" conds with
        | Some (ks, []) => Some ks
        | _ => None
        end
      else None
  end.

Definition parse_select (ts : list string) : option statement :=
  let (cols, r) := parse_list ts in
  match r with
  | from :: t :: r' =>
      if String.eqb from "FROM" then
        match parse_where r' with
        | Some ks => Some (Select cols t ks)
        | None => None
        end
      else None
  | _ => None
  end.

Definition parse_insert (ts : list string) : option statement :=
  match ts with
  | into :: t :: lp :: ts1 =>
      if String.eqb into "INTO" && String.eqb lp "(" then
        let (cols, r) := parse_list ts1 in
        match r with
        | rp :: vals :: lp' :: ts2 =>
            if String.eqb rp ")" && String.eqb vals "VALUES"
               && String.eqb lp' "("
            then
              let (marks, r') := parse_list ts2 in
              match r' with
              | [rp'] =>
                  if String.eqb rp' ")" then Some (Insert t cols marks)
                  else None
              | _ => None
              end
            else None
        | _ => None
        end
      else None
  | _ => None
  end.

Definition parse_update (ts : list string) : option statement :=
  match ts with
  | t :: set :: ts1 =>
      if String.eqb set "SET" then
        match parse_assignments "," ts1 with
        | Some (cols, r) =>
            match parse_where r with
            | Some ks => Some (Update t cols ks)
            | None => None
            end
        | None => None
        end
      else None
  | _ => None
  end.

Definition parse_delete (ts : list string) : option statement :=
  match ts with
  | from :: t :: r =>
      if String.eqb from "FROM" then
        match parse_where r with
        | Some ks => Some (Delete t ks)
        | None => None
        end
      else None
  | _ => None
  end.

Definition parse (ts : list string) : option statement :=
  match ts with
  | [] => None
  | verb :: ts' =>
      if String.eqb verb "SELECT" then parse_select ts'
      else if String.eqb verb "INSERT" then parse_insert ts'
      else if String.eqb verb "UPDATE" then parse_update ts'
      else if String.eqb verb "DELETE" then parse_delete ts'
      else None
  end.

(** *** Running a statement *)

(** Modelled from the spec: the database files the process can open. *)
Class Disk : Type := disk : string -> list table.

Section Engine.

Context `{SqlEq} `{Disk}.

Fixpoint find_table (t : string) (tbs : list table) : option table :=
  match tbs with
  | [] => None
  | tb :: tbs' =>
      if String.eqb t (t_name tb) then Some tb else find_table t tbs'
  end.

Definition replace_table (tb : table) (tbs : list table) : list table :=
  map (fun x => if String.eqb (t_name tb) (t_name x) then tb else x) tbs.

Fixpoint index_of (c : string) (cs : list string) : option nat :=
  match cs with
  | [] => None
  | c' :: cs' =>
      if String.eqb c c' then Some O
      else match index_of c cs' with
           | Some i => Some (S i)
           | None => None
           end
  end.

Fixpoint indices (cs all : list string) : option (list nat) :=
  match cs with
  | [] => Some []
  | c :: cs' =>
      match index_of c all, indices cs' all with
      | Some i, Some ixs => Some (i :: ixs)
      | _, _ => None
      end
  end.

(** The value a row holds in the named column. *)
Definition column (tb : table) (c : string) (r : row) : value :=
  match index_of c (columns tb) with
  | Some i => nth i r VNone
  | None => VNone
  end.

(** [k1 = ? AND k2 = ? AND ...] on one row, each k given by its position. *)
Fixpoint matches (ks : list nat) (ps : list value) (r : row) : bool :=
  match ks, ps with
  | k :: ks', p :: ps' => sql_eq (nth k r VNone) p && matches ks' ps' r
  | _, _ => true
  end.

Definition projection (cols : list string) (tb : table)
  : option (row -> row) :=
  match cols with
  | [c] =>
      if String.eqb c "*" then Some (fun r => r)
      else match index_of c (columns tb) with
           | Some i => Some (fun r => [nth i r VNone])
           | None => None
           end
  | _ =>
      match indices cols (columns tb) with
      | Some ixs => Some (fun r => map (fun i => nth i r VNone) ixs)
      | None => None
      end
  end.

(** What a bound parameter may be. *)
Definition scalar (v : value) : bool :=
  match v with
  | VNone | VBool _ | VInt _ | VStr _ => true
  | VList _ | VDict _ => false
  end.

Definition failed (e : db_error) (st : store) : option db_error * store :=
  (Some e, st).

Definition no_such_table (t : string) : db_error :=
  OperationalError ("no such table: " +++ t).

Definition no_such_column : db_error :=
  OperationalError "no such column".

Definition bad_bindings : db_error :=
  ProgrammingError "Incorrect number of bindings supplied".

Definition run_select (cols : list string) (t : string) (ks : list string)
  (params : list value) (st : store) : option db_error * store :=
  match find_table t (tables st) with
  | None => failed (no_such_table t) st
  | Some tb =>
      match projection cols tb, indices ks (columns tb) with
      | Some proj, Some ixs =>
          if Nat.eqb (List.length ixs) (List.length params) then
            (None,
             {| committed := committed st;
                tables := tables st;
                result_set :=
                  map proj (filter (matches ixs params)
                              (map physical (t_rows tb)));
                last_id := last_id st;
                row_count := (-1)%Z |})
          else failed bad_bindings st
      | _, _ => failed no_such_column st
      end
  end.

(** The identifier a fresh row gets when none is supplied: [1] in an
    empty table, one more than the largest otherwise. *)
Definition next_id (tb : table) : Z :=
  match map fst (t_rows tb) with
  | [] => 1%Z
  | i :: ixs => (1 + fold_left Z.max ixs i)%Z
  end.

Definition has_id (i : Z) (tb : table) : bool :=
  existsb (Z.eqb i) (map fst (t_rows tb)).

(** The value the statement gives to column [c], if any. *)
Fixpoint given (c : string) (cols : list string) (params : list value)
  : option value :=
  match cols, params with
  | c' :: cols', p :: params' =>
      if String.eqb c c' then Some p else given c cols' params'
  | _, _ => None
  end.

(** The identifier of the row to insert: the one supplied, which must be
    an integer not in use, or else a generated one. *)
Definition new_id (tb : table) (v : option value) : db_error + Z :=
  match v with
  | None => inr (next_id tb)
  | Some (VInt i) =>
      if has_id i tb
      then inl (IntegrityError "UNIQUE constraint failed: id")
      else inr i
  | Some _ => inl (IntegrityError "datatype mismatch")
  end.

Definition with_tables (st : store) (tbs : list table) (lid : value)
  (count : Z) : store :=
  {| committed := committed st;
     tables := tbs;
     result_set := [];
     last_id := lid;
     row_count := count |}.

(** The row an INSERT of [cols = params] stores under identifier [i]:
    a column the statement does not mention is NULL. *)
Definition fresh_row (tb : table) (cols : list string)
  (params : list value) (i : Z) : Z * row :=
  (i, map (fun c => match given c cols params with
                    | Some v => v
                    | None => VNone
                    end) (t_columns tb)).

Definition add_row (tb : table) (r : Z * row) : table :=
  {| t_name := t_name tb;
     t_columns := t_columns tb;
     t_rows := t_rows tb ++ [r] |}.

Definition run_insert (t : string) (cols marks : list string)
  (params : list value) (st : store) : option db_error * store :=
  match find_table t (tables st) with
  | None => failed (no_such_table t) st
  | Some tb =>
      match indices cols (columns tb) with
      | None => failed no_such_column st
      | Some _ =>
          if negb (Nat.eqb (List.length cols) (List.length marks))
          then failed (OperationalError "values for columns") st
          else if negb (Nat.eqb (List.length marks) (List.length params))
          then failed bad_bindings st
          else
            match new_id tb (given "id" cols params) with
            | inl e => failed e st
            | inr i =>
                let tb' := add_row tb (fresh_row tb cols params i) in
                (None,
                 with_tables st (replace_table tb' (tables st)) (VInt i) 1)
            end
      end
  end.

Fixpoint all_some {A : Type} (l : list (option A)) : option (list A) :=
  match l with
  | [] => Some []
  | Some a :: l' =>
      match all_some l' with Some l'' => Some (a :: l'') | None => None end
  | None :: _ => None
  end.

Fixpoint distinct (l : list Z) : bool :=
  match l with
  | [] => true
  | i :: l' => negb (existsb (Z.eqb i) l') && distinct l'
  end.

(** One row after [SET cols = sets]; [None] when the new identifier is
    not an integer. *)
Definition updated (tb : table) (cols : list string) (sets : list value)
  (r : Z * row) : option (Z * row) :=
  let r' :=
    map (fun cv : string * value =>
           match given (fst cv) cols sets with
           | Some v => v
           | None => snd cv
           end) (combine (t_columns tb) (snd r)) in
  match given "id" cols sets with
  | None => Some (fst r, r')
  | Some (VInt i) => Some (i, r')
  | Some _ => None
  end.

Definition run_update (t : string) (cols ks : list string)
  (params : list value) (st : store) : option db_error * store :=
  match find_table t (tables st) with
  | None => failed (no_such_table t) st
  | Some tb =>
      match indices cols (columns tb), indices ks (columns tb) with
      | Some _, Some kix =>
          if negb (Nat.eqb (List.length cols + List.length ks)
                     (List.length params))
          then failed bad_bindings st
          else
            let sets := firstn (List.length cols) params in
            let args := skipn (List.length cols) params in
            let hit := fun r => matches kix args (physical r) in
            match
              all_some
                (map (fun r => if hit r then updated tb cols sets r
                               else Some r) (t_rows tb))
            with
            | None => failed (IntegrityError "datatype mismatch") st
            | Some rows' =>
                if distinct (map fst rows') then
                  let tb' :=
                    {| t_name := t_name tb;
                       t_columns := t_columns tb;
                       t_rows := rows' |} in
                  (None,
                   with_tables st (replace_table tb' (tables st))
                     (last_id st)
                     (Z.of_nat (List.length (filter hit (t_rows tb)))))
                else failed (IntegrityError "UNIQUE constraint failed: id") st
            end
      | _, _ => failed no_such_column st
      end
  end.

Definition run_delete (t : string) (ks : list string)
  (params : list value) (st : store) : option db_error * store :=
  match find_table t (tables st) with
  | None => failed (no_such_table t) st
  | Some tb =>
      match indices ks (columns tb) with
      | Some kix =>
          if negb (Nat.eqb (List.length ks) (List.length params))
          then failed bad_bindings st
          else
            let hit := fun r => matches kix params (physical r) in
            let tb' :=
              {| t_name := t_name tb;
                 t_columns := t_columns tb;
                 t_rows := filter (fun r => negb (hit r)) (t_rows tb) |} in
            (None,
             with_tables st (replace_table tb' (tables st))
               (last_id st)
               (Z.of_nat (List.length (filter hit (t_rows tb)))))
      | None => failed no_such_column st
      end
  end.

Definition run (s : statement) (params : list value) (st : store)
  : option db_error * store :=
  match s with
  | Select cols t ks => run_select cols t ks params st
  | Insert t cols marks => run_insert t cols marks params st
  | Update t cols ks => run_update t cols ks params st
  | Delete t ks => run_delete t ks params st
  end.

Definition ref_execute (query : string) (params : list value) (st : store)
  : option db_error * store :=
  match parse (tokens query) with
  | None => failed (OperationalError "syntax error") st
  | Some s =>
      if forallb scalar params then run s params st
      else failed (InterfaceError "Error binding parameter") st
  end.

(** Opening the file [name] of the disk. *)
Definition ref_connect (name : string) : store :=
  {| committed := disk name;
     tables := disk name;
     result_set := [];
     last_id := VNone;
     row_count := (-1)%Z |}.

Definition ref_rollback (st : store) : store :=
  {| committed := committed st;
     tables := committed st;
     result_set := result_set st;
     last_id := last_id st;
     row_count := row_count st |}.

Definition ref_commit (st : store) : store :=
  {| committed := tables st;
     tables := tables st;
     result_set := result_set st;
     last_id := last_id st;
     row_count := row_count st |}.

#[export] Instance driver : Sqlite3 store := {
  sqlite3_connect := ref_connect;
  cur_execute := ref_execute;
  cur_fetchall := result_set;
  cur_lastrowid := last_id;
  cur_rowcount := fun st => row_count st;
  conn_rollback := ref_rollback;
  conn_commit := ref_commit
}.

End Engine.

(** The store's equality as SQL has it: NULL equals nothing, a boolean
    is the integer 0 or 1, integers and texts compare among themselves. *)
Definition as_sql (v : value) : value :=
  match v with
  | VBool true => VInt 1
  | VBool false => VInt 0
  | _ => v
  end.

Definition sqlite_eq (a b : value) : bool :=
  match as_sql a, as_sql b with
  | VInt x, VInt y => Z.eqb x y
  | VStr x, VStr y => String.eqb x y
  | _, _ => false
  end.

#[export] Instance sqlite_SqlEq : SqlEq := {
  sql_eq := sqlite_eq;
  sql_eq_int := fun a b => eq_refl
}.

(** Identifiers: non-empty words without blanks, parentheses or
    commas. *)
Fixpoint word (s : string) : bool :=
  match s with
  | EmptyString => true
  | String c s' => negb (is_space c) && negb (is_punct c) && word s'
  end.

Definition is_ident (s : string) : bool :=
  negb (String.eqb s "") && word s.

(** The keys are columns of the table. *)
Definition are_columns (tb : table) (ks : list string) : bool :=
  forallb (fun k => existsb (String.eqb k) (columns tb)) ks.

(** Table and column names are identifiers. *)
Definition schema_ok (tb : table) : bool :=
  is_ident (t_name tb) && forallb is_ident (t_columns tb).

(** An in-memory database file with the two tables of the service. *)
Definition users_table (rows : list (Z * row)) : table :=
  {| t_name := "users"; t_columns := ["name"; "email"]; t_rows := rows |}.

Definition passwords_table (rows : list (Z * row)) : table :=
  {| t_name := "passwords";
     t_columns := ["password_hash"; "user_id"];
     t_rows := rows |}.

(** [repr] of the interpreter; a text is quoted without escapes, which
    is what Python prints for texts free of quotes and backslashes. *)
Fixpoint repr (v : value) : string :=
  match v with
  | VNone => "None"
  | VBool true => "True"
  | VBool false => "False"
  | VInt z => DecimalString.NilZero.string_of_int (Z.to_int z)
  | VStr s => "'" +++ s +++ "'"
  | VList l => "[" +++ String.concat ", " (map repr l) +++ "]"
  | VDict d =>
      "{" +++
      String.concat ", "
        (map (fun kv : value * value =>
                let (k, x) := kv in repr k +++ ": " +++ repr x) d)
      +++ "}"
  end.

#[export] Instance python_str : Builtins := { str := repr }.

(** Fields that accept exactly their own type. *)
#[export] Instance strict_fields : Pydantic := {
  validate_int := fun v => match v with VInt z => Some z | _ => None end;
  validate_str := fun v => match v with VStr s => Some s | _ => None end
}.

(** Two database files: one with three users and a password, one with
    the tables still empty. *)
Definition sample_disk : Disk :=
  fun _ =>
    [users_table [(1%Z, [VStr "Alice"; VStr "a@x.com"]);
                  (2%Z, [VStr "Bob"; VStr "b@x.com"]);
                  (3%Z, [VStr "Alice"; VStr "c@x.com"])];
     passwords_table [(1%Z, [VStr "5f4dcc3b"; VInt 2])]].

Definition empty_disk : Disk :=
  fun _ => [users_table []; passwords_table []].

Definition sample_driver : Sqlite3 store := @driver sqlite_SqlEq sample_disk.

Definition empty_driver : Sqlite3 store := @driver sqlite_SqlEq empty_disk.

Definition sample_manager : SQLiteManager store :=
  @__init__ store sample_driver "src/data/api.db3".

Definition empty_manager : SQLiteManager store :=
  @__init__ store empty_driver "src/data/api.db3".

End RefStore.

(* ================================================================== *)
(** ** How one call of an operation can end                            *)
(* ================================================================== *)

Module outcomes.
Section Outcomes.

Context {conn : Type} `{Sqlite3 conn}.

(** A writing operation ([insert], [update], [delete]) ends in one of
    three ways: its arguments are refused and the manager is as before;
    its one statement is accepted and nothing else is called; or the
    statement is rejected, the connection is rolled back and the store's
    error is raised. *)
Definition write_outcome {A : Type} (m : M conn A)
  (self : SQLiteManager conn) : Prop :=
  (exists msg, m self = (Raise (ValueError msg), self))
  \/ (exists q ps a,
         fst (cur_execute q ps (self_conn self)) = None
         /\ m self = (Ok a, after_execute q ps self))
  \/ (exists q ps e,
         fst (cur_execute q ps (self_conn self)) = Some e
         /\ fst (m self) = Raise (Sqlite3Error e)
         /\ calls (snd (m self)) = calls self ++ [Execute q ps; Rollback]).

(** [select] ends in one of three ways: its arguments are refused (a
    [ValueError] or a [TypeError]) and the manager is as before; its one
    statement is accepted and the rows are fetched; or the statement is
    rejected and the store's error is raised, with no further call. *)
Definition read_outcome (m : M conn (list row))
  (self : SQLiteManager conn) : Prop :=
  (exists e, m self = (Raise e, self)
             /\ ((exists msg, e = ValueError msg)
                 \/ (exists msg, e = TypeError msg)))
  \/ (exists q ps,
         fst (cur_execute q ps (self_conn self)) = None
         /\ fst (m self)
            = Ok (cur_fetchall (snd (cur_execute q ps (self_conn self))))
         /\ calls (snd (m self)) = calls self ++ [Execute q ps; Fetchall])
  \/ (exists q ps e,
         fst (cur_execute q ps (self_conn self)) = Some e
         /\ m self = (Raise (Sqlite3Error e), after_execute q ps self)).

End Outcomes.

Section Texts.

Context `{Builtins}.

(** The statement texts of [insert], [update] and [delete], as functions
    of the table, of the column names and of the filter names; [insert]
    writes one placeholder per value, of which there are as many as
    keys. *)
Definition insert_text (table : value) (columns : list string) : string :=
  "INSERT INTO " +++ format table +++ " (" +++
  String.concat ", " columns +++ ") VALUES (" +++
  String.concat ", " (repeat "?" (List.length columns)) +++ ")".

Definition update_text (table : value) (columns : list value)
  (filters : list string) : string :=
  "UPDATE " +++ format table +++ " SET " +++
  String.concat ", " (map (fun key => format key +++ " = ?") columns) +++
  " WHERE " +++
  String.concat " AND " (map (fun key => key +++ " = ?") filters).

Definition delete_text (table : value) (filters : list string) : string :=
  "DELETE FROM " +++ format table +++ " WHERE " +++
  String.concat " AND " (map (fun key => key +++ " = ?") filters).

End Texts.
End outcomes.
Import outcomes.

(* ================================================================== *)
(** ** Properties of the query builder, for every driver               *)
(* ================================================================== *)

Section QueryBuilder.

Context {conn : Type} `{Sqlite3 conn} `{Builtins}.

Implicit Types (kw : kwargs) (self : SQLiteManager conn).

Lemma get_remove_same k kw : get k (remove k kw) = None.
Proof.
  induction kw as [|[k' v] kw IH]; simpl; auto.
  destruct (String.eqb k k') eqn:E; simpl; auto.
  now rewrite E.
Qed.

Lemma remove_remove_same k kw : remove k (remove k kw) = remove k kw.
Proof.
  induction kw as [|[k' v] kw IH]; simpl; auto.
  destruct (String.eqb k k') eqn:E; simpl; auto.
  now rewrite E, IH.
Qed.

Lemma keys_remove k kw :
  keys (remove k kw) = filter (fun x => negb (String.eqb k x)) (keys kw).
Proof.
  induction kw as [|[k' v] kw IH]; simpl; auto.
  destruct (String.eqb k k'); simpl; now rewrite ?IH.
Qed.

Lemma skipn_length_app {A : Type} (l l' : list A) :
  skipn (List.length l) (l ++ l') = l'.
Proof. induction l; simpl; auto. Qed.

Lemma issued_nothing {A : Type} (m : M conn A) self r :
  m self = (r, self) -> issued m self = [].
Proof.
  unfold issued. intros ->. simpl.
  rewrite <- (app_nil_r (calls self)) at 2. apply skipn_length_app.
Qed.

Lemma nonempty_false {A : Type} (l : list A) : nonempty l = false -> l = [].
Proof. destruct l; auto; discriminate. Qed.

Lemma select_loop_spec kw :
  select_loop kw = (map (fun k => k +++ " = ?") (keys kw), values kw).
Proof.
  unfold select_loop.
  assert (G : forall acc1 acc2,
             fold_left
               (fun (acc : list string * list value) (item : string * value) =>
                  let (where_clauses, params) := acc in
                  let (key, value) := item in
                  (where_clauses ++ [key +++ " = ?"], params ++ [value]))
               kw (acc1, acc2)
             = (acc1 ++ map (fun k => k +++ " = ?") (keys kw),
                acc2 ++ values kw)).
  { induction kw as [|[k v] kw IH]; intros; simpl.
    - now rewrite !app_nil_r.
    - rewrite IH, <- !app_assoc. reflexivity. }
  apply (G [] []).
Qed.

(** C10. In [select], [insert], [update] and [delete] a [table] argument
    that is present but falsy (the empty string, [None], [0], ...) raises
    the operation's "table is required" [ValueError], exactly as a call
    without the argument does, and the manager is left as it was: no
    statement has been built or executed. *)
Theorem falsy_table_is_missing_table :
  forall kw self v,
    get "table" kw = Some v ->
    truthy v = false ->
    let omitted := remove "table" kw in
    (select kw self = (Raise (ValueError msg_select_table), self)
     /\ select omitted self = select kw self)
    /\ (insert kw self = (Raise (ValueError msg_insert_table), self)
        /\ insert omitted self = insert kw self)
    /\ (update kw self = (Raise (ValueError msg_update_table), self)
        /\ update omitted self = update kw self)
    /\ (delete kw self = (Raise (ValueError msg_delete_table), self)
        /\ delete omitted self = delete kw self).
Proof.
  intros kw self v Hget Hv omitted. subst omitted.
  unfold select, insert, update, delete, pop.
  rewrite !get_remove_same, Hget, Hv. simpl.
  repeat split; reflexivity.
Qed.

Lemma append_nil_r (s : string) : s +++ "" = s.
Proof. induction s; simpl; congruence. Qed.

Lemma append_assoc (a b c : string) : (a +++ b) +++ c = a +++ b +++ c.
Proof. induction a; simpl; congruence. Qed.

Lemma get_remove_other k k' kw :
  String.eqb k' k = false -> get k (remove k' kw) = get k kw.
Proof.
  intros Hk. induction kw as [|[k0 v] kw IH]; simpl; auto.
  destruct (String.eqb k' k0) eqn:E; simpl.
  - apply String.eqb_eq in E. subst k0.
    rewrite String.eqb_sym, Hk. exact IH.
  - destruct (String.eqb k k0); auto.
Qed.

Lemma calls_after_execute q ps self :
  calls (after_execute q ps self) = calls self ++ [Execute q ps].
Proof. reflexivity. Qed.

(** What [try: execute; return attribute  except: rollback; raise]
    comes to. *)
Lemma guarded_execute {A : Type} (attr : conn -> A) q ps self :
  try_except
    (execute q ps ;; (fun s => (Ok (attr (self_conn s)), s)))
    (fun e => rollback ;; raise e) self
  = match fst (cur_execute q ps (self_conn self)) with
    | None =>
        (Ok (attr (snd (cur_execute q ps (self_conn self)))),
         after_execute q ps self)
    | Some e =>
        (Raise (Sqlite3Error e),
         on_driver Rollback conn_rollback (after_execute q ps self))
    end.
Proof.
  unfold try_except, bind, execute, rollback, raise, after_execute.
  destruct (fst (cur_execute q ps (self_conn self))); reflexivity.
Qed.

Lemma issued_guarded {A : Type} (attr : conn -> A) q ps self :
  let m := try_except
             (execute q ps ;; (fun s => (Ok (attr (self_conn s)), s)))
             (fun e => rollback ;; raise e) in
  issued m self
  = match fst (cur_execute q ps (self_conn self)) with
    | None => [Execute q ps]
    | Some _ => [Execute q ps; Rollback]
    end.
Proof.
  intros m. unfold issued, m. rewrite guarded_execute.
  destruct (fst (cur_execute q ps (self_conn self))); simpl.
  - rewrite <- app_assoc. apply skipn_length_app.
  - apply skipn_length_app.
Qed.

(** The statement and parameters each operation hands to the driver. *)
Lemma insert_runs kw self :
  truthy (table_of kw) = true ->
  insert_data kw <> [] ->
  insert kw self
  = try_except
      (execute
         ("INSERT INTO " +++ format (table_of kw) +++ " (" +++
          String.concat ", " (keys (insert_data kw)) +++ ") VALUES (" +++
          String.concat ", "
            (repeat "?" (List.length (values (insert_data kw)))) +++ ")")
         (values (insert_data kw)) ;;
       lastrowid)
      (fun e => rollback ;; raise e) self.
Proof.
  intros Ht Hd. unfold insert, table_of, insert_data, pop in *.
  simpl in *. rewrite Ht. simpl.
  destruct (remove "table" kw); [congruence | reflexivity].
Qed.

Lemma update_runs kw self :
  truthy (table_of kw) = true ->
  truthy (data_of kw) = true ->
  isinstance_dict (data_of kw) = true ->
  update_filters kw <> [] ->
  update kw self
  = try_except
      (execute
         ("UPDATE " +++ format (table_of kw) +++ " SET " +++
          String.concat ", "
            (map (fun key => format key +++ " = ?")
               (dict_keys (data_of kw))) +++
          " WHERE " +++
          String.concat " AND "
            (map (fun key => key +++ " = ?") (keys (update_filters kw))))
         (dict_values (data_of kw) ++ values (update_filters kw)) ;;
       rowcount)
      (fun e => rollback ;; raise e) self.
Proof.
  intros Ht Hd Hi Hf.
  unfold update, table_of, data_of, update_filters, pop in *.
  simpl in *. rewrite Ht, Hd, Hi. simpl.
  destruct (remove "data" (remove "table" kw)); [congruence | reflexivity].
Qed.

Lemma delete_runs kw self :
  truthy (table_of kw) = true ->
  delete_filters kw <> [] ->
  delete kw self
  = try_except
      (execute
         ("DELETE FROM " +++ format (table_of kw) +++ " WHERE " +++
          String.concat " AND "
            (map (fun key => key +++ " = ?") (keys (delete_filters kw))))
         (values (delete_filters kw)) ;;
       rowcount)
      (fun e => rollback ;; raise e) self.
Proof.
  intros Ht Hf. unfold delete, table_of, delete_filters, pop in *.
  simpl in *. rewrite Ht. simpl.
  destruct (remove "table" kw); [congruence | reflexivity].
Qed.

Lemma select_runs kw self cols :
  truthy (table_of kw) = true ->
  join ", " (options_of kw) = Ok cols ->
  select kw self
  = (execute
       (("SELECT " +++ cols +++ " FROM " +++ format (table_of kw)) +++
        where_text (keys (select_filters kw)))
       (values (select_filters kw)) ;;
     fetchall) self.
Proof.
  intros Ht Hj. unfold select, table_of, options_of, select_filters, pop in *.
  simpl in *. rewrite Ht. simpl.
  unfold bind at 1, lift. rewrite Hj, select_loop_spec.
  destruct (remove "options" (remove "table" kw)) as [|[k v] f]; simpl.
  - now rewrite append_nil_r.
  - reflexivity.
Qed.

(** C1 (amended). With an empty filter mapping, [update] (given a
    non-empty data dictionary) and [delete] raise a [ValueError] and leave
    the manager untouched, so that no statement reaches the driver: the
    unsafe-operation error when the table argument is truthy, the
    "table is required" error when it is falsy or absent. *)
Theorem unfiltered_update_delete_rejected :
  forall kw kw' self d,
    get "data" kw = Some (VDict d) ->
    d <> [] ->
    update_filters kw = [] ->
    delete_filters kw' = [] ->
    (update kw self
     = (Raise (ValueError (if truthy (table_of kw)
                           then msg_update_unsafe
                           else msg_update_table)), self)
     /\ issued (update kw) self = [])
    /\ (delete kw' self
        = (Raise (ValueError (if truthy (table_of kw')
                              then msg_delete_unsafe
                              else msg_delete_table)), self)
        /\ issued (delete kw') self = []).
Proof.
  intros kw kw' self d Hd Hne Hf Hf'.
  assert (U : update kw self
              = (Raise (ValueError (if truthy (table_of kw)
                                    then msg_update_unsafe
                                    else msg_update_table)), self)).
  { unfold update, table_of, update_filters, pop in *. simpl in *.
    rewrite get_remove_other, Hd, Hf by reflexivity.
    destruct (truthy _); simpl; auto.
    destruct d; [congruence | reflexivity]. }
  assert (D : delete kw' self
              = (Raise (ValueError (if truthy (table_of kw')
                                    then msg_delete_unsafe
                                    else msg_delete_table)), self)).
  { clear U. unfold delete, table_of, pop. simpl.
    unfold delete_filters in Hf'. rewrite Hf'.
    destruct (truthy _); reflexivity. }
  repeat split; auto; eapply issued_nothing; eauto.
Qed.

(** C2. [__exit__] always ends with a commit; it rolls back first exactly
    when the block raised. Seen from the [with] statement: whatever the
    block did, its outcome is the outcome of the statement, and the driver
    then receives rollback-then-commit after an exception and a lone
    commit otherwise. *)
Theorem exit_rolls_back_on_error_and_always_commits :
  (forall (exc : option exn) self,
      fst (__exit__ exc self) = Ok tt
      /\ issued (__exit__ exc) self
         = match exc with
           | Some _ => [Rollback; Commit]
           | None => [Commit]
           end
      /\ self_conn (snd (__exit__ exc self))
         = conn_commit match exc with
                       | Some _ => conn_rollback (self_conn self)
                       | None => self_conn self
                       end)
  /\ (forall (A : Type) (mgr : SQLiteManager conn) (body : M conn A),
         fst (with_ mgr body) = fst (body mgr)
         /\ calls (snd (with_ mgr body))
            = calls (snd (body mgr))
              ++ match fst (body mgr) with
                 | Raise _ => [Rollback; Commit]
                 | Ok _ => [Commit]
                 end).
Proof.
  split.
  - intros [e|] self; unfold issued; simpl; repeat split.
    + rewrite <- app_assoc. apply skipn_length_app.
    + apply skipn_length_app.
  - intros A mgr body. unfold with_, __enter__.
    destruct (body mgr) as [[a|e] s]; simpl; split; auto.
    now rewrite <- app_assoc.
Qed.

(** C3. Whenever [update] reaches the driver it binds the values of
    [data], in the dictionary's order, followed by the values of the
    filters, in theirs, and it reaches the driver exactly once if its
    arguments pass validation and not at all otherwise. For
    [data={"a":1,"b":2}] and the filter [id=5] the parameters are
    [(1, 2, 5)], whatever the (truthy) table. *)
Theorem update_binds_set_values_then_filter_values :
  (forall kw self,
      bound_params (issued (update kw) self)
      = if truthy (table_of kw) && truthy (data_of kw)
           && isinstance_dict (data_of kw) && nonempty (update_filters kw)
        then [dict_values (data_of kw) ++ values (update_filters kw)]
        else [])
  /\ (forall table self,
         bound_params
           (issued
              (update [("table", table);
                       ("data", VDict [(VStr "a", VInt 1);
                                       (VStr "b", VInt 2)]);
                       ("id", VInt 5)]) self)
         = if truthy table then [[VInt 1; VInt 2; VInt 5]] else []).
Proof.
  assert (G : forall kw self,
             bound_params (issued (update kw) self)
             = if truthy (table_of kw) && truthy (data_of kw)
                  && isinstance_dict (data_of kw)
                  && nonempty (update_filters kw)
               then [dict_values (data_of kw) ++ values (update_filters kw)]
               else []).
  { intros kw self.
    destruct (truthy (table_of kw)) eqn:Ht; simpl.
    2:{ erewrite issued_nothing; [reflexivity|].
        unfold update, table_of, pop in *. simpl in *. rewrite Ht.
        reflexivity. }
    destruct (truthy (data_of kw)) eqn:Hd; simpl.
    2:{ erewrite issued_nothing; [reflexivity|].
        unfold update, table_of, data_of, pop in *. simpl in *.
        rewrite Ht, Hd. reflexivity. }
    destruct (isinstance_dict (data_of kw)) eqn:Hi; simpl.
    2:{ erewrite issued_nothing; [reflexivity|].
        unfold update, table_of, data_of, pop in *. simpl in *.
        rewrite Ht, Hd, Hi. reflexivity. }
    destruct (nonempty (update_filters kw)) eqn:Hf.
    2:{ erewrite issued_nothing; [reflexivity|].
        apply nonempty_false in Hf.
        unfold update, table_of, data_of, update_filters, pop in *.
        simpl in *. rewrite Ht, Hd, Hi, Hf. reflexivity. }
    unfold issued.
    rewrite update_runs; auto; [|intros E; rewrite E in Hf; discriminate].
    fold (issued
            (try_except
               (execute
                  ("UPDATE " +++ format (table_of kw) +++ " SET " +++
                   String.concat ", "
                     (map (fun key => format key +++ " = ?")
                        (dict_keys (data_of kw))) +++
                   " WHERE " +++
                   String.concat " AND "
                     (map (fun key => key +++ " = ?")
                        (keys (update_filters kw))))
                  (dict_values (data_of kw) ++ values (update_filters kw)) ;;
                rowcount)
               (fun e => rollback ;; raise e)) self).
    unfold rowcount. rewrite (issued_guarded cur_rowcount).
    destruct (fst (cur_execute _ _ _)); reflexivity. }
  split; [exact G|].
  intros table self. rewrite G.
  unfold table_of, data_of, update_filters, pop. simpl.
  destruct (truthy table); reflexivity.
Qed.

Lemma select_reaches_driver kw self :
  let text cols :=
    ("SELECT " +++ cols +++ " FROM " +++ format (table_of kw)) +++
    where_text (keys (select_filters kw)) in
  statements (issued (select kw) self)
  = (if truthy (table_of kw)
     then match join ", " (options_of kw) with
          | Ok cols => [text cols]
          | Raise _ => []
          end
     else [])
  /\ bound_params (issued (select kw) self)
     = (if truthy (table_of kw)
        then match join ", " (options_of kw) with
             | Ok _ => [values (select_filters kw)]
             | Raise _ => []
             end
        else []).
Proof.
  intros text.
  destruct (truthy (table_of kw)) eqn:Ht.
  2:{ erewrite issued_nothing; [split; reflexivity|].
      unfold select, table_of, pop in *. simpl in *. rewrite Ht.
      reflexivity. }
  destruct (join ", " (options_of kw)) as [cols|e] eqn:Hj.
  2:{ erewrite issued_nothing; [split; reflexivity|].
      unfold select, table_of, options_of, pop in *. simpl in *.
      rewrite Ht. simpl. unfold bind, lift. rewrite Hj. reflexivity. }
  unfold issued. rewrite (select_runs kw self cols Ht Hj).
  unfold bind, execute, fetchall.
  destruct (fst (cur_execute _ _ _)); simpl.
  - rewrite skipn_length_app. split; reflexivity.
  - rewrite <- app_assoc, skipn_length_app. split; reflexivity.
Qed.

(** C4. The text [select] sends to the driver is determined by the
    table, the options and the filter keys: two calls that agree on these
    send the same text, whatever the filter values. The text carries one
    [key = ?] per filter, joined by [AND], and the values travel apart,
    as the bound parameters, one per filter. *)
Theorem select_text_ignores_filter_values :
  forall kw1 kw2 self1 self2,
    table_of kw1 = table_of kw2 ->
    options_of kw1 = options_of kw2 ->
    keys (select_filters kw1) = keys (select_filters kw2) ->
    statements (issued (select kw1) self1)
    = statements (issued (select kw2) self2)
    /\ (forall cols,
           truthy (table_of kw1) = true ->
           join ", " (options_of kw1) = Ok cols ->
           statements (issued (select kw1) self1)
           = [("SELECT " +++ cols +++ " FROM " +++ format (table_of kw1))
              +++ where_text (keys (select_filters kw1))]
           /\ bound_params (issued (select kw1) self1)
              = [values (select_filters kw1)]
           /\ List.length (values (select_filters kw1))
              = List.length (keys (select_filters kw1))).
Proof.
  intros kw1 kw2 self1 self2 Ht Ho Hk.
  destruct (select_reaches_driver kw1 self1) as [S1 B1].
  destruct (select_reaches_driver kw2 self2) as [S2 _].
  split.
  - rewrite S1, S2, Ht, Ho, Hk. reflexivity.
  - intros cols Htr Hj. rewrite S1, B1, Htr, Hj.
    repeat split. unfold values, keys. now rewrite !length_map.
Qed.

Lemma issued_ext {A : Type} (m m' : M conn A) self :
  m self = m' self -> issued m self = issued m' self.
Proof. unfold issued. now intros ->. Qed.

Lemma insert_cases kw self :
  (exists msg, insert kw self = (Raise (ValueError msg), self))
  \/ (truthy (table_of kw) = true /\ insert_data kw <> []).
Proof.
  destruct (truthy (table_of kw)) eqn:Ht.
  - destruct (insert_data kw) eqn:Hd.
    + left. eexists. unfold insert, table_of, insert_data, pop in *.
      simpl in *. rewrite Ht, Hd. reflexivity.
    + right. split; auto. discriminate.
  - left. eexists. unfold insert, table_of, pop in *. simpl in *.
    rewrite Ht. reflexivity.
Qed.

Lemma update_cases kw self :
  (exists msg, update kw self = (Raise (ValueError msg), self))
  \/ (truthy (table_of kw) = true /\ truthy (data_of kw) = true
      /\ isinstance_dict (data_of kw) = true /\ update_filters kw <> []).
Proof.
  destruct (truthy (table_of kw)) eqn:Ht.
  2:{ left. eexists. unfold update, table_of, pop in *. simpl in *.
      rewrite Ht. reflexivity. }
  destruct (truthy (data_of kw)) eqn:Hd.
  2:{ left. eexists. unfold update, table_of, data_of, pop in *.
      simpl in *. rewrite Ht, Hd. reflexivity. }
  destruct (isinstance_dict (data_of kw)) eqn:Hi.
  2:{ left. eexists. unfold update, table_of, data_of, pop in *.
      simpl in *. rewrite Ht, Hd, Hi. reflexivity. }
  destruct (update_filters kw) eqn:Hf.
  - left. eexists.
    unfold update, table_of, data_of, update_filters, pop in *.
    simpl in *. rewrite Ht, Hd, Hi, Hf. reflexivity.
  - right. repeat split; auto. discriminate.
Qed.

Lemma delete_cases kw self :
  (exists msg, delete kw self = (Raise (ValueError msg), self))
  \/ (truthy (table_of kw) = true /\ delete_filters kw <> []).
Proof.
  destruct (truthy (table_of kw)) eqn:Ht.
  - destruct (delete_filters kw) eqn:Hd.
    + left. eexists. unfold delete, table_of, delete_filters, pop in *.
      simpl in *. rewrite Ht, Hd. reflexivity.
    + right. split; auto. discriminate.
  - left. eexists. unfold delete, table_of, pop in *. simpl in *.
    rewrite Ht. reflexivity.
Qed.

Lemma guarded_rejected {A : Type} (attr : conn -> A) (m : M conn A)
  Q P self q ps e :
  m self
  = try_except
      (execute Q P ;; (fun s => (Ok (attr (self_conn s)), s)))
      (fun e => rollback ;; raise e) self ->
  rejected_by_store m self q ps e ->
  rolled_back_and_reraised m self q ps e.
Proof.
  intros Hm [Hhd Hrej].
  unfold rolled_back_and_reraised.
  rewrite (issued_ext _ _ _ Hm) in *. rewrite Hm.
  rewrite (issued_guarded attr) in *. rewrite guarded_execute.
  assert (E : Q = q /\ P = ps).
  { destruct (fst (cur_execute Q P (self_conn self)));
      simpl in Hhd; inversion Hhd; auto. }
  destruct E; subst Q P. rewrite Hrej. repeat split.
Qed.

Lemma not_rejected_without_call {A : Type} (m : M conn A) self r q ps e :
  m self = (r, self) -> ~ rejected_by_store m self q ps e.
Proof.
  intros Hm [Hhd _]. rewrite (issued_nothing _ _ _ Hm) in Hhd. discriminate.
Qed.

(** C6. When the store rejects the statement that [insert], [update] or
    [delete] executes, the operation makes no second attempt, rolls the
    connection back, and then raises the very error the store gave. *)
Theorem rejected_statement_is_rolled_back_and_reraised :
  forall kw self q ps e,
    (rejected_by_store (insert kw) self q ps e ->
     rolled_back_and_reraised (insert kw) self q ps e)
    /\ (rejected_by_store (update kw) self q ps e ->
        rolled_back_and_reraised (update kw) self q ps e)
    /\ (rejected_by_store (delete kw) self q ps e ->
        rolled_back_and_reraised (delete kw) self q ps e).
Proof.
  intros kw self q ps e. split; [|split]; intros R.
  - destruct (insert_cases kw self) as [[msg E]|[Ht Hd]].
    + now apply not_rejected_without_call with (q := q) (ps := ps) (e := e)
        in E.
    + eapply (guarded_rejected cur_lastrowid); eauto.
      apply insert_runs; auto.
  - destruct (update_cases kw self) as [[msg E]|(Ht & Hd & Hi & Hf)].
    + now apply not_rejected_without_call with (q := q) (ps := ps) (e := e)
        in E.
    + eapply (guarded_rejected cur_rowcount); eauto.
      apply update_runs; auto.
  - destruct (delete_cases kw self) as [[msg E]|[Ht Hd]].
    + now apply not_rejected_without_call with (q := q) (ps := ps) (e := e)
        in E.
    + eapply (guarded_rejected cur_rowcount); eauto.
      apply delete_runs; auto.
Qed.

Lemma combine_keys_values kw : combine (keys kw) (values kw) = kw.
Proof.
  unfold keys, values.
  induction kw as [|[k v] kw IH]; simpl; auto. now rewrite IH.
Qed.

(** C7. [insert] without data fields raises a [ValueError] and reaches
    no driver, whatever the table argument. With data (and a truthy
    table) it executes one INSERT whose column list is the data keys and
    whose bound parameters are the data values, key and value in the same
    position; when the store accepts the statement the result is the
    cursor's [lastrowid]. *)
Theorem insert_requires_data_and_binds_it :
  forall kw0 kw self,
    insert_data kw0 = [] ->
    insert_data kw <> [] ->
    truthy (table_of kw) = true ->
    (insert kw0 self
     = (Raise (ValueError (if truthy (table_of kw0)
                           then msg_insert_no_data
                           else msg_insert_table)), self)
     /\ issued (insert kw0) self = [])
    /\ (let data := insert_data kw in
        let query :=
          "INSERT INTO " +++ format (table_of kw) +++ " (" +++
          String.concat ", " (keys data) +++ ") VALUES (" +++
          String.concat ", " (repeat "?" (List.length (values data))) +++
          ")" in
        let reply := cur_execute query (values data) (self_conn self) in
        hd_error (issued (insert kw) self)
        = Some (Execute query (values data))
        /\ combine (keys data) (values data) = data
        /\ (fst reply = None ->
            insert kw self
            = (Ok (cur_lastrowid (snd reply)),
               after_execute query (values data) self))).
Proof.
  intros kw0 kw self Hd0 Hd Ht.
  assert (E0 : insert kw0 self
               = (Raise (ValueError (if truthy (table_of kw0)
                                     then msg_insert_no_data
                                     else msg_insert_table)), self)).
  { clear Hd Ht. unfold insert, table_of, pop. simpl.
    unfold insert_data in Hd0. rewrite Hd0.
    destruct (truthy _); reflexivity. }
  split; [split; [exact E0 | eapply issued_nothing; eauto]|].
  intros data query reply. subst data query reply.
  repeat split.
  - erewrite issued_ext by (apply insert_runs; auto).
    unfold lastrowid. rewrite (issued_guarded cur_lastrowid).
    destruct (fst (cur_execute _ _ _)); reflexivity.
  - apply combine_keys_values.
  - intros Hr. rewrite insert_runs by auto.
    unfold lastrowid. rewrite (guarded_execute cur_lastrowid), Hr.
    reflexivity.
Qed.

End QueryBuilder.

(* ================================================================== *)
(** ** Properties of the endpoints, for every driver                   *)
(* ================================================================== *)

Section Endpoints.

Context {conn : Type} `{Sqlite3 conn} `{Builtins} `{Pydantic}.

Variable database : string.

(** What a lookup endpoint answers, from the outcome of its [select]:
    404 for the empty result set, the mapped first row otherwise, and an
    exception of [select] as it is. *)
Lemma lookup_answer {A : Type} (of_row : row -> M conn A)
  (detail : string) (kw : kwargs) :
  fst (with_ (__init__ database)
         (result <-
            try_except (rows <- select kw ;; lift (subscript rows 0))
              (except_IndexError detail) ;;
          of_row result))
  = match select kw (__init__ database) with
    | (Ok [], _) => Raise (HTTPException 404 detail)
    | (Ok (r :: _), self) => fst (of_row r self)
    | (Raise (IndexError _), _) => Raise (HTTPException 404 detail)
    | (Raise e, _) => Raise e
    end.
Proof.
  unfold with_, __enter__, try_except, bind.
  destruct (select kw (__init__ database)) as [[[|r rows]|e] self]; simpl.
  - reflexivity.
  - destruct (of_row r self) as [[a|e] s]; reflexivity.
  - destruct e; reflexivity.
Qed.

(** [select] called with a text table name, no options and an integer
    identifier fails only with an error of the driver. *)
Lemma select_by_id_outcome (t : string) (id : Z) self e :
  t <> "" ->
  fst (select [("table", VStr t); ("id", VInt id)] self) = Raise e ->
  exists d, e = Sqlite3Error d.
Proof.
  intros Ht. unfold select, pop. simpl.
  destruct (String.eqb t "") eqn:E; [apply String.eqb_eq in E; congruence|].
  simpl. unfold bind, lift, execute, fetchall. simpl.
  destruct (fst (cur_execute _ _ _)); simpl; intros Q; inversion Q; eauto.
Qed.

Lemma user_of_row_answer (r : row) (self : SQLiteManager conn) :
  fst (user_of_row r self)
  = match r with
    | r0 :: r1 :: r2 :: _ => new_User r0 r1 r2
    | _ => Raise (IndexError "index out of range")
    end.
Proof.
  destruct r as [|r0 [|r1 [|r2 r]]]; reflexivity.
Qed.

Lemma password_of_row_answer (r : row) (self : SQLiteManager conn) :
  fst (password_of_row r self)
  = match r with
    | r0 :: r1 :: r2 :: _ => new_Password r0 r1 r2
    | _ => Raise (IndexError "index out of range")
    end.
Proof.
  destruct r as [|r0 [|r1 [|r2 r]]]; reflexivity.
Qed.

Lemma new_User_not_http a b c code detail :
  new_User a b c <> Raise (HTTPException code detail).
Proof.
  unfold new_User.
  destruct (validate_int a), (validate_str b), (validate_str c); discriminate.
Qed.

Lemma new_Password_not_http a b c code detail :
  new_Password a b c <> Raise (HTTPException code detail).
Proof.
  unfold new_Password.
  destruct (validate_int a), (validate_int c), (validate_str b); discriminate.
Qed.

(** C9. [get_user] and [get_password] answer 404 ("User not found",
    "password not found") exactly when [select] returned no row. An
    exception of [select], which can only be the driver's, is never
    turned into 404 but passed on as it is; and when there are rows, the
    first is mapped by position: [User(id=r[0], name=r[1], email=r[2])],
    [Password(id=r[0], password_hash=r[1], user_id=r[2])]. *)
Theorem not_found_iff_empty_result :
  forall id : Z,
    let users :=
      fst (select [("table", VStr "users"); ("id", VInt id)]
             (__init__ database)) in
    let passwords :=
      fst (select [("table", VStr "passwords"); ("id", VInt id)]
             (__init__ database)) in
    ((fst (get_user database id) = Raise (HTTPException 404 "User not found")
      <-> users = Ok [])
     /\ (forall e, users = Raise e ->
                   fst (get_user database id) = Raise e
                   /\ exists d, e = Sqlite3Error d)
     /\ (forall r rest, users = Ok (r :: rest) ->
                        fst (get_user database id)
                        = match r with
                          | r0 :: r1 :: r2 :: _ => new_User r0 r1 r2
                          | _ => Raise (IndexError "index out of range")
                          end))
    /\ ((fst (get_password database id)
         = Raise (HTTPException 404 "password not found")
         <-> passwords = Ok [])
        /\ (forall e, passwords = Raise e ->
                      fst (get_password database id) = Raise e
                      /\ exists d, e = Sqlite3Error d)
        /\ (forall r rest, passwords = Ok (r :: rest) ->
                           fst (get_password database id)
                           = match r with
                             | r0 :: r1 :: r2 :: _ => new_Password r0 r1 r2
                             | _ => Raise (IndexError "index out of range")
                             end)).
Proof.
  intros id users passwords. split.
  - clear passwords. unfold get_user. rewrite lookup_answer. subst users.
    pose proof (select_by_id_outcome "users" id (__init__ database)) as O.
    destruct (select _ (__init__ database)) as [[[|r rows]|e] self];
      simpl in *.
    + repeat split; auto; intros; congruence.
    + rewrite user_of_row_answer. repeat split.
      all: try congruence.
      * intros Q. exfalso.
        destruct r as [|r0 [|r1 [|r2 r]]]; try discriminate.
        now apply new_User_not_http in Q.
      * intros r' rest Q. now inversion Q.
    + destruct (O e) as [d ->]; [discriminate | reflexivity|].
      repeat split; try congruence.
      match goal with Q : Raise _ = Raise _ |- _ => inversion Q end. eauto.
  - clear users. unfold get_password. rewrite lookup_answer.
    subst passwords.
    pose proof (select_by_id_outcome "passwords" id (__init__ database)) as O.
    destruct (select _ (__init__ database)) as [[[|r rows]|e] self];
      simpl in *.
    + repeat split; auto; intros; congruence.
    + rewrite password_of_row_answer. repeat split.
      all: try congruence.
      * intros Q. exfalso.
        destruct r as [|r0 [|r1 [|r2 r]]]; try discriminate.
        now apply new_Password_not_http in Q.
      * intros r' rest Q. now inversion Q.
    + destruct (O e) as [d ->]; [discriminate | reflexivity|].
      repeat split; try congruence.
      match goal with Q : Raise _ = Raise _ |- _ => inversion Q end. eauto.
Qed.

End Endpoints.

(* ================================================================== *)
(** ** The query builder on the reference store                        *)
(* ================================================================== *)

Section OnReferenceStore.

Import RefStore.

Context `{SqlEq} `{Disk} `{Builtins}.

Implicit Types (kw : kwargs) (self : SQLiteManager store).

(** *** Lexing the statements the builder emits *)

Lemma lex_cons (s : string) : exists w ws, lex s = w :: ws.
Proof.
  induction s as [|c s (w & ws & IH)]; simpl; eauto.
  destruct (is_space c); eauto.
  destruct (is_punct c); eauto.
  rewrite IH; eauto.
Qed.

Lemma lex_word (w s : string) :
  word w = true -> lex (w +++ s) = glue w (lex s).
Proof.
  induction w as [|c w IH]; simpl; intros Hw.
  - destruct (lex_cons s) as (t & ts & ->). reflexivity.
  - apply andb_prop in Hw as [Hc Hw]. apply andb_prop in Hc as [Hs Hp].
    apply negb_true_iff in Hs, Hp. rewrite Hs, Hp, (IH Hw).
    destruct (lex_cons s) as (t & ts & ->). reflexivity.
Qed.

Lemma delimited_nil : delimited "".
Proof. exists []. reflexivity. Qed.

Lemma delimited_space s : delimited (String " " s).
Proof. eexists. reflexivity. Qed.

Lemma delimited_comma s : delimited (String "," s).
Proof. eexists. reflexivity. Qed.

Lemma delimited_close s : delimited (String ")" s).
Proof. eexists. reflexivity. Qed.

Lemma tokens_word (w s : string) :
  is_ident w = true -> delimited s -> tokens (w +++ s) = w :: tokens s.
Proof.
  unfold is_ident, tokens. intros Hw [r Hr].
  apply andb_prop in Hw as [Hne Hw].
  rewrite (lex_word _ _ Hw), Hr. simpl.
  rewrite append_nil_r, Hne. reflexivity.
Qed.

Lemma is_ident_word w : is_ident w = true -> word w = true.
Proof. unfold is_ident. intros Hw. now apply andb_prop in Hw. Qed.

Lemma tokens_commas (ns : list string) (s : string) :
  ns <> [] ->
  forallb is_ident ns = true ->
  delimited s ->
  tokens (String.concat ", " ns +++ s) = commas ns ++ tokens s.
Proof.
  intros Hne Hall Hs. induction ns as [|n ns IH]; [congruence|].
  simpl in Hall. apply andb_prop in Hall as [Hn Hall].
  destruct ns as [|n' ns].
  - simpl. now apply tokens_word.
  - change (String.concat ", " (n :: n' :: ns))
      with (n +++ ", " +++ String.concat ", " (n' :: ns)).
    rewrite append_assoc.
    rewrite tokens_word; [|exact Hn|apply delimited_comma].
    change (commas (n :: n' :: ns)) with (n :: "," :: commas (n' :: ns)).
    simpl app. f_equal.
    change (tokens ((", " +++ String.concat ", " (n' :: ns)) +++ s))
      with ("," :: tokens (String.concat ", " (n' :: ns) +++ s)).
    f_equal. apply IH; [discriminate | exact Hall].
Qed.

Lemma tokens_conjuncts (ks : list string) :
  ks <> [] ->
  forallb is_ident ks = true ->
  tokens (String.concat " AND " (map (fun k => k +++ " = ?") ks))
  = conjuncts ks.
Proof.
  intros Hne Hall. induction ks as [|k ks IH]; [congruence|].
  simpl in Hall. apply andb_prop in Hall as [Hk Hall].
  destruct ks as [|k' ks].
  - simpl. rewrite tokens_word; [reflexivity|exact Hk|apply delimited_space].
  - change (String.concat " AND "
              (map (fun k => k +++ " = ?") (k :: k' :: ks)))
      with ((k +++ " = ?") +++ " AND " +++
            String.concat " AND " (map (fun k => k +++ " = ?") (k' :: ks))).
    rewrite append_assoc.
    rewrite tokens_word; [|exact Hk|apply delimited_space].
    change (conjuncts (k :: k' :: ks))
      with (k :: "=" :: "?" :: "AND" :: conjuncts (k' :: ks)).
    f_equal.
    change (tokens (" = ?" +++ " AND " +++
                    String.concat " AND "
                      (map (fun k => k +++ " = ?") (k' :: ks))))
      with ("=" :: "?" :: "AND" ::
            tokens (String.concat " AND "
                      (map (fun k => k +++ " = ?") (k' :: ks)))).
    do 3 f_equal. apply IH; [discriminate | exact Hall].
Qed.

(** *** Parsing them back *)

Lemma parse_list_commas (ns rest : list string) :
  ns <> [] ->
  match rest with r :: _ => String.eqb r "," = false | [] => True end ->
  parse_list (commas ns ++ rest) = (ns, rest).
Proof.
  intros Hne Hrest. induction ns as [|n ns IH]; [congruence|].
  destruct ns as [|n' ns].
  - simpl. destruct rest as [|r rest]; [reflexivity|]. now rewrite Hrest.
  - change (commas (n :: n' :: ns) ++ rest)
      with (n :: "," :: (commas (n' :: ns) ++ rest)).
    cbn [parse_list]. change (String.eqb "," ",") with true. cbv iota.
    rewrite IH by discriminate. reflexivity.
Qed.

Lemma parse_assignments_conjuncts (ks : list string) :
  ks <> [] -> parse_assignments "AND" (conjuncts ks) = Some (ks, []).
Proof.
  intros Hne. induction ks as [|k ks IH]; [congruence|].
  destruct ks as [|k' ks]; [reflexivity|].
  change (conjuncts (k :: k' :: ks))
    with (k :: "=" :: "?" :: "AND" :: conjuncts (k' :: ks)).
  cbn [parse_assignments].
  change (String.eqb "=" "=" && String.eqb "?" "?") with true.
  change (String.eqb "AND" "AND") with true. cbv iota.
  rewrite IH by discriminate. reflexivity.
Qed.

Lemma tokens_where (ks : list string) :
  forallb is_ident ks = true ->
  delimited (where_text ks)
  /\ parse_where (tokens (where_text ks)) = Some ks.
Proof.
  intros Hall. destruct ks as [|k ks].
  - split; [apply delimited_nil | reflexivity].
  - split; [apply delimited_space|].
    change (tokens (where_text (k :: ks)))
      with ("WHERE" ::
            tokens (String.concat " AND "
                      (map (fun k => k +++ " = ?") (k :: ks)))).
    rewrite tokens_conjuncts by (auto; discriminate).
    unfold parse_where. change (String.eqb "WHERE" "WHERE") with true.
    cbv iota. rewrite parse_assignments_conjuncts by discriminate.
    reflexivity.
Qed.

(** The SELECT of the builder, without options, is read back as the
    statement it was meant to be. *)
Lemma parse_select_all (t : string) (ks : list string) :
  is_ident t = true ->
  forallb is_ident ks = true ->
  parse (tokens (("SELECT " +++ "*" +++ " FROM " +++ t) +++ where_text ks))
  = Some (Select ["*"] t ks).
Proof.
  intros Ht Hks. destruct (tokens_where ks Hks) as [Hd Hp].
  change (("SELECT " +++ "*" +++ " FROM " +++ t) +++ where_text ks)
    with ("SELECT * FROM " +++ (t +++ where_text ks)).
  change (tokens ("SELECT * FROM " +++ (t +++ where_text ks)))
    with ("SELECT" :: "*" :: "FROM" :: tokens (t +++ where_text ks)).
  rewrite tokens_word by auto.
  cbn. rewrite Hp. reflexivity.
Qed.

(** *** SELECT on the store *)

Lemma find_table_name t tbs tb :
  find_table t tbs = Some tb -> t_name tb = t.
Proof.
  induction tbs as [|x tbs IH]; simpl; [discriminate|].
  destruct (String.eqb t (t_name x)) eqn:E; auto.
  intros Q. inversion Q. subst. apply String.eqb_eq in E. auto.
Qed.

Lemma index_of_In k cols : In k cols -> exists i, index_of k cols = Some i.
Proof.
  induction cols as [|c cols IH]; simpl; [tauto|].
  destruct (String.eqb k c) eqn:E; eauto.
  intros [->|Hin]; [rewrite String.eqb_refl in E; discriminate|].
  destruct (IH Hin) as [i ->]. eauto.
Qed.

Lemma are_columns_In tb ks :
  are_columns tb ks = true -> forall k, In k ks -> In k (columns tb).
Proof.
  unfold are_columns. rewrite forallb_forall. intros Hall k Hin.
  specialize (Hall k Hin). apply existsb_exists in Hall as (c & Hc & E).
  apply String.eqb_eq in E. now subst.
Qed.

Lemma indices_In ks cols :
  (forall k, In k ks -> In k cols) ->
  exists ixs, indices ks cols = Some ixs
              /\ List.length ixs = List.length ks.
Proof.
  induction ks as [|k ks IH]; simpl; intros Hin; eauto.
  destruct (index_of_In k cols) as [i ->]; auto.
  destruct IH as (ixs & -> & Hl); auto.
  eexists. split; eauto. simpl. congruence.
Qed.

Lemma matches_every_filter tb (f : kwargs) ixs r :
  indices (keys f) (columns tb) = Some ixs ->
  matches ixs (values f) r
  = forallb (fun kv => sql_eq (column tb (fst kv) r) (snd kv)) f.
Proof.
  unfold column. generalize (columns tb) as cols. intros cols.
  revert ixs. induction f as [|[k v] f IH]; simpl; intros ixs Hix.
  - inversion Hix. reflexivity.
  - destruct (index_of k cols) as [i|]; [|discriminate].
    destruct (indices (keys f) cols) as [ixs'|]; [|discriminate].
    inversion Hix. subst. simpl. now rewrite (IH ixs').
Qed.

Lemma schema_ok_idents tb k :
  schema_ok tb = true -> In k (columns tb) -> is_ident k = true.
Proof.
  unfold schema_ok. intros Hok [<-|Hin]; [reflexivity|].
  apply andb_prop in Hok as [_ Hc].
  rewrite forallb_forall in Hc. auto.
Qed.

Lemma schema_ok_name tb : schema_ok tb = true -> is_ident (t_name tb) = true.
Proof.
  unfold schema_ok. intros Hok. now apply andb_prop in Hok as [Hn _].
Qed.

Lemma is_ident_truthy t : is_ident t = true -> truthy (VStr t) = true.
Proof. unfold is_ident. intros Ht. now apply andb_prop in Ht as [Ht _]. Qed.

(** The rows a filter mapping selects from a table. *)
Lemma select_on_store kw self t tb :
  get "table" kw = Some (VStr t) ->
  get "options" kw = None ->
  find_table t (tables (self_conn self)) = Some tb ->
  schema_ok tb = true ->
  are_columns tb (keys (select_filters kw)) = true ->
  forallb scalar (values (select_filters kw)) = true ->
  fst (select kw self)
  = Ok (filter
          (fun r =>
             forallb (fun kv => sql_eq (column tb (fst kv) r) (snd kv))
               (select_filters kw))
          (map physical (t_rows tb))).
Proof.
  intros Ht Ho Hfind Hok Hcols Hscalar.
  pose proof (find_table_name _ _ _ Hfind) as Hname.
  pose proof (schema_ok_name _ Hok) as Hid. rewrite Hname in Hid.
  assert (Htab : table_of kw = VStr t)
    by (unfold table_of, pop; simpl; now rewrite Ht).
  assert (Hopt : options_of kw = VList [VStr "*"]).
  { unfold options_of, pop. simpl.
    rewrite get_remove_other, Ho by reflexivity. reflexivity. }
  pose proof (are_columns_In _ _ Hcols) as Hkeys.
  assert (Hidents : forallb is_ident (keys (select_filters kw)) = true).
  { apply forallb_forall. intros k Hin.
    eapply schema_ok_idents; eauto. }
  destruct (indices_In _ _ Hkeys) as (ixs & Hix & Hlen).
  rewrite (select_runs kw self "*");
    [|rewrite Htab; now apply is_ident_truthy|now rewrite Hopt].
  rewrite Htab. unfold bind, execute, fetchall. unfold format.
  cbn [cur_execute cur_fetchall driver].
  unfold ref_execute. rewrite parse_select_all by auto.
  rewrite Hscalar. cbn [run]. unfold run_select.
  rewrite Hfind, Hix. cbn [projection]. change (String.eqb "*" "*") with true.
  cbv iota.
  replace (Nat.eqb (List.length ixs)
             (List.length (values (select_filters kw)))) with true.
  2:{ symmetry. apply Nat.eqb_eq. unfold values, keys in *.
      rewrite Hlen, !length_map. reflexivity. }
  cbn. rewrite map_id. f_equal. apply filter_ext. intros r.
  now apply matches_every_filter.
Qed.

(** C5. On a table of the store, [select] returns exactly the rows that
    agree with every filter at once: a row is kept when each filtered
    column equals, in the store's sense, the value asked for, and dropped
    as soon as one does not. When no row qualifies the result is the
    empty list, not an error. *)
Theorem select_returns_rows_matching_every_filter :
  forall kw self t tb,
    get "table" kw = Some (VStr t) ->
    get "options" kw = None ->
    find_table t (tables (self_conn self)) = Some tb ->
    schema_ok tb = true ->
    are_columns tb (keys (select_filters kw)) = true ->
    forallb scalar (values (select_filters kw)) = true ->
    let every_filter := fun r =>
      forallb (fun kv => sql_eq (column tb (fst kv) r) (snd kv))
        (select_filters kw) in
    fst (select kw self)
    = Ok (filter every_filter (map physical (t_rows tb)))
    /\ (forall r, In r (map physical (t_rows tb)) ->
                  (In r (filter every_filter (map physical (t_rows tb)))
                   <-> forall k v, In (k, v) (select_filters kw) ->
                                   sql_eq (column tb k r) v = true))
    /\ ((forall r, In r (map physical (t_rows tb)) ->
                   every_filter r = false) ->
        fst (select kw self) = Ok []).
Proof.
  intros kw self t tb Ht Ho Hfind Hok Hcols Hscalar every_filter.
  pose proof (select_on_store kw self t tb Ht Ho Hfind Hok Hcols Hscalar)
    as S.
  fold every_filter in S. split; [exact S|]. split.
  - intros r Hr. rewrite filter_In. unfold every_filter.
    rewrite forallb_forall. split.
    + intros [_ Hall] k v Hin. apply (Hall (k, v) Hin).
    + intros Hall. split; [exact Hr|]. intros [k v] Hin. now apply Hall.
  - intros Hnone. rewrite S. f_equal. clear S. revert Hnone.
    generalize (map physical (t_rows tb)) as rows.
    induction rows as [|r rows IH]; simpl; intros Hnone; auto.
    rewrite Hnone by (left; reflexivity).
    apply IH. intros r' Hr'. apply Hnone. now right.
Qed.

(** *** INSERT on the store *)

Lemma repeat_nonempty {A : Type} (a : A) n : n <> O -> repeat a n <> [].
Proof. destruct n; simpl; congruence. Qed.

Lemma forallb_repeat {A : Type} (f : A -> bool) a n :
  f a = true -> forallb f (repeat a n) = true.
Proof. intros Ha. induction n; simpl; auto. now rewrite Ha. Qed.

(** The INSERT of the builder is read back as the statement it was meant
    to be. *)
Lemma parse_insert_text (t : string) (ks : list string) (n : nat) :
  is_ident t = true ->
  ks <> [] ->
  forallb is_ident ks = true ->
  n <> O ->
  parse (tokens ("INSERT INTO " +++ t +++ " (" +++ String.concat ", " ks +++
                 ") VALUES (" +++ String.concat ", " (repeat "?" n) +++ ")"))
  = Some (Insert t ks (repeat "?" n)).
Proof.
  intros Ht Hne Hks Hn.
  change (tokens ("INSERT INTO " +++ t +++ " (" +++
                  String.concat ", " ks +++ ") VALUES (" +++
                  String.concat ", " (repeat "?" n) +++ ")"))
    with ("INSERT" :: "INTO" ::
          tokens (t +++ " (" +++ String.concat ", " ks +++ ") VALUES (" +++
                  String.concat ", " (repeat "?" n) +++ ")")).
  rewrite tokens_word; [|exact Ht|apply delimited_space].
  change (tokens (" (" +++ String.concat ", " ks +++ ") VALUES (" +++
                  String.concat ", " (repeat "?" n) +++ ")"))
    with ("(" ::
          tokens (String.concat ", " ks +++ ") VALUES (" +++
                  String.concat ", " (repeat "?" n) +++ ")")).
  rewrite tokens_commas; [|exact Hne|exact Hks|apply delimited_close].
  change (tokens (") VALUES (" +++ String.concat ", " (repeat "?" n) +++ ")"))
    with (")" :: "VALUES" :: "(" ::
          tokens (String.concat ", " (repeat "?" n) +++ ")")).
  rewrite tokens_commas;
    [|now apply repeat_nonempty|now apply forallb_repeat
     |apply delimited_close].
  change (tokens ")") with [")"].
  cbn [parse]. change (String.eqb "INSERT" "SELECT") with false.
  change (String.eqb "INSERT" "INSERT") with true. cbv iota.
  cbn [parse_insert].
  change (String.eqb "INTO" "INTO" && String.eqb "(" "(") with true.
  cbv iota.
  rewrite parse_list_commas by (auto; reflexivity).
  change (String.eqb ")" ")" && String.eqb "VALUES" "VALUES"
          && String.eqb "(" "(") with true.
  cbv iota.
  rewrite parse_list_commas
    by (try reflexivity; now apply repeat_nonempty).
  reflexivity.
Qed.

Lemma execute_insert_on_store (st : store) (t : string) (tb : table)
  (data : kwargs) :
  find_table t (tables st) = Some tb ->
  schema_ok tb = true ->
  data <> [] ->
  (forall k, In k (keys data) -> In k (columns tb)) ->
  ref_execute
    ("INSERT INTO " +++ t +++ " (" +++ String.concat ", " (keys data) +++
     ") VALUES (" +++
     String.concat ", " (repeat "?" (List.length (values data))) +++ ")")
    (values data) st
  = if forallb scalar (values data) then
      match new_id tb (given "id" (keys data) (values data)) with
      | inl e => (Some e, st)
      | inr n =>
          (None,
           with_tables st
             (replace_table
                (add_row tb (fresh_row tb (keys data) (values data) n))
                (tables st))
             (VInt n) 1)
      end
    else (Some (InterfaceError "Error binding parameter"), st).
Proof.
  intros Hfind Hok Hne Hcols.
  pose proof (find_table_name _ _ _ Hfind) as Hname.
  pose proof (schema_ok_name _ Hok) as Hid. rewrite Hname in Hid.
  assert (Hk : keys data <> []) by (destruct data; simpl; congruence).
  assert (Hn : List.length (values data) <> O)
    by (destruct data; simpl; congruence).
  assert (Hidents : forallb is_ident (keys data) = true).
  { apply forallb_forall. intros k Hin. eapply schema_ok_idents; eauto. }
  destruct (indices_In _ _ Hcols) as (ixs & Hix & _).
  unfold ref_execute. rewrite parse_insert_text by auto.
  destruct (forallb scalar (values data)); [|reflexivity].
  cbn [run]. unfold run_insert. rewrite Hfind, Hix.
  rewrite repeat_length.
  replace (Nat.eqb (List.length (keys data)) (List.length (values data)))
    with true
    by (symmetry; apply Nat.eqb_eq; unfold keys, values;
        now rewrite !length_map).
  rewrite Nat.eqb_refl. cbn [negb].
  destruct (new_id tb _); reflexivity.
Qed.

Lemma find_replace_table t tbs tb tb' :
  find_table t tbs = Some tb ->
  t_name tb' = t_name tb ->
  find_table t (replace_table tb' tbs) = Some tb'.
Proof.
  intros Hfind Hname. pose proof (find_table_name _ _ _ Hfind) as Ht.
  induction tbs as [|x tbs IH]; simpl in *; [discriminate|].
  destruct (String.eqb t (t_name x)) eqn:E.
  - inversion Hfind. subst x. rewrite Hname, String.eqb_refl.
    rewrite Hname, Ht, String.eqb_refl. reflexivity.
  - destruct (String.eqb (t_name tb') (t_name x)) eqn:E'.
    + rewrite Hname, Ht, String.eqb_refl. reflexivity.
    + rewrite E. auto.
Qed.

Lemma fold_max_le (l : list Z) (a : Z) :
  (a <= fold_left Z.max l a)%Z
  /\ forall m, In m l -> (m <= fold_left Z.max l a)%Z.
Proof.
  revert a. induction l as [|x l IH]; simpl; intros a.
  - split; [lia | tauto].
  - destruct (IH (Z.max a x)) as [Ha Hl]. split; [lia|].
    intros m [<-|Hin]; [lia | auto].
Qed.

Lemma next_id_above tb m :
  In m (map fst (t_rows tb)) -> (m < next_id tb)%Z.
Proof.
  unfold next_id. destruct (map fst (t_rows tb)) as [|i l]; [intros []|].
  destruct (fold_max_le l i) as [Hi Hl].
  intros [<-|Hin]; [lia|]. specialize (Hl _ Hin). lia.
Qed.

Lemma has_id_false tb n :
  has_id n tb = false <-> ~ In n (map fst (t_rows tb)).
Proof.
  unfold has_id. split.
  - intros Hf Hin. assert (T : existsb (Z.eqb n) (map fst (t_rows tb)) = true).
    { apply existsb_exists. exists n. split; auto. apply Z.eqb_refl. }
    congruence.
  - intros Hn. destruct (existsb _ _) eqn:E; auto.
    apply existsb_exists in E as (m & Hin & Heq).
    apply Z.eqb_eq in Heq. subst m. contradiction.
Qed.

(** The identifier INSERT settles on is not in use. *)
Lemma new_id_fresh tb g n : new_id tb g = inr n -> has_id n tb = false.
Proof.
  assert (N : has_id (next_id tb) tb = false).
  { apply has_id_false. intros Hin. apply next_id_above in Hin. lia. }
  unfold new_id. destruct g as [[| | i | | |]|]; try discriminate.
  - destruct (has_id i tb) eqn:E; [discriminate|].
    intros Q. inversion Q. subst. exact E.
  - intros Q. inversion Q. subst. exact N.
Qed.

Lemma given_In (data : kwargs) k v :
  NoDup (keys data) -> In (k, v) data ->
  given k (keys data) (values data) = Some v.
Proof.
  induction data as [|[k' v'] data IH]; simpl; [tauto|].
  intros Hnd [Q|Hin].
  - inversion Q. subst. now rewrite String.eqb_refl.
  - inversion Hnd as [|? ? Hnot Hnd']. subst.
    destruct (String.eqb k k') eqn:E.
    + apply String.eqb_eq in E. subst. exfalso. apply Hnot.
      apply in_map_iff. exists (k', v). auto.
    + auto.
Qed.

Lemma given_keys_values (data : kwargs) k :
  given k (keys data) (values data) = get k data.
Proof.
  induction data as [|[k' v] data IH]; simpl; auto.
  destruct (String.eqb k k'); auto.
Qed.

Lemma nth_index_of_map {A : Type} (g : string -> A) k cols j d :
  index_of k cols = Some j -> nth j (map g cols) d = g k.
Proof.
  revert j. induction cols as [|c cols IH]; simpl; [discriminate|].
  intros j. destruct (String.eqb k c) eqn:E.
  - intros Q. inversion Q. apply String.eqb_eq in E. now subst.
  - destruct (index_of k cols) as [j'|]; [|discriminate].
    intros Q. inversion Q. subst. simpl. auto.
Qed.

Lemma unique_NoDup ks : unique ks = true -> NoDup ks.
Proof.
  induction ks as [|k ks IH]; simpl; intros Hu; constructor.
  - apply andb_prop in Hu as [Hk _]. apply negb_true_iff in Hk.
    intros Hin. assert (T : existsb (String.eqb k) ks = true).
    { apply existsb_exists. exists k. split; auto. apply String.eqb_refl. }
    congruence.
  - apply andb_prop in Hu as [_ Hu]. auto.
Qed.

Lemma NoDup_keys_remove k kw : well_formed kw -> NoDup (keys (remove k kw)).
Proof.
  unfold well_formed. intros Hu. rewrite keys_remove.
  apply NoDup_filter. now apply unique_NoDup.
Qed.

Lemma insert_on_store kw self t tb :
  get "table" kw = Some (VStr t) ->
  find_table t (tables (self_conn self)) = Some tb ->
  schema_ok tb = true ->
  (forall k, In k (keys (insert_data kw)) -> In k (columns tb)) ->
  forall i, fst (insert kw self) = Ok i ->
  exists n,
    i = VInt n
    /\ new_id tb (given "id" (keys (insert_data kw))
                    (values (insert_data kw))) = inr n
    /\ tables (self_conn (snd (insert kw self)))
       = replace_table
           (add_row tb (fresh_row tb (keys (insert_data kw))
                          (values (insert_data kw)) n))
           (tables (self_conn self)).
Proof.
  intros Ht Hfind Hok Hcols i Hins.
  destruct (insert_cases kw self) as [[msg E]|[Htr Hd]];
    [rewrite E in Hins; discriminate|].
  assert (Htab : table_of kw = VStr t)
    by (unfold table_of, pop; simpl; now rewrite Ht).
  rewrite (insert_runs kw self Htr Hd) in *.
  unfold lastrowid in *. rewrite (guarded_execute cur_lastrowid) in *.
  rewrite Htab in *. unfold format, after_execute, on_driver in *.
  cbn [cur_execute cur_lastrowid conn_rollback driver self_conn] in *.
  rewrite (execute_insert_on_store _ t tb) in * by auto.
  destruct (forallb scalar (values (insert_data kw)));
    [|simpl in Hins; discriminate].
  destruct (new_id tb _) as [e|n] eqn:En; [simpl in Hins; discriminate|].
  simpl in Hins. inversion Hins. exists n. repeat split.
Qed.

Lemma filter_new_row (tb : table) (n : Z) (x : row) :
  has_id n tb = false ->
  filter (fun r => sql_eq (nth 0 r VNone) (VInt n) && true)
    (map physical (t_rows tb ++ [(n, x)]))
  = [physical (n, x)].
Proof.
  rewrite has_id_false. generalize (t_rows tb) as rows.
  induction rows as [|[m y] rows IH]; simpl; intros Hn.
  - now rewrite sql_eq_int, Z.eqb_refl.
  - rewrite sql_eq_int.
    destruct (Z.eqb m n) eqn:E; [apply Z.eqb_eq in E; subst; tauto|].
    simpl. apply IH. tauto.
Qed.

(** C8. When [insert] has stored a row and returned its identifier,
    [select] on the same table, filtered by that identifier, returns
    exactly one row; the row carries the identifier and, in every column
    that was given, the value that was given. A generated identifier is
    positive when the identifiers in the table are. *)
Theorem insert_then_select_by_id_round_trip :
  forall kw self t tb i,
    get "table" kw = Some (VStr t) ->
    well_formed kw ->
    find_table t (tables (self_conn self)) = Some tb ->
    schema_ok tb = true ->
    are_columns tb (keys (insert_data kw)) = true ->
    fst (insert kw self) = Ok i ->
    exists n r,
      i = VInt n
      /\ fst (select [("table", VStr t); ("id", i)] (snd (insert kw self)))
         = Ok [VInt n :: r]
      /\ (forall k v, In (k, v) (insert_data kw) ->
                      column tb k (VInt n :: r) = v)
      /\ (get "id" kw = None ->
          (forall m, In m (map fst (t_rows tb)) -> (0 < m)%Z) ->
          (0 < n)%Z).
Proof.
  intros kw self t tb i Ht Hwf Hfind Hok Hcols' Hins.
  pose proof (are_columns_In _ _ Hcols') as Hcols.
  destruct (insert_on_store kw self t tb Ht Hfind Hok Hcols i Hins)
    as (n & -> & Hnew & Htables).
  set (data := insert_data kw) in *.
  set (row := fresh_row tb (keys data) (values data) n) in *.
  exists n, (snd row). split; [reflexivity|]. split; [|split].
  - rewrite (select_on_store _ _ t (add_row tb row)).
    + change (filter _ _)
        with (filter (fun r => sql_eq (nth 0 r VNone) (VInt n) && true)
                (map physical (t_rows tb ++ [(n, snd row)]))).
      rewrite filter_new_row; [reflexivity|].
      eapply new_id_fresh; eauto.
    + reflexivity.
    + reflexivity.
    + rewrite Htables. now apply find_replace_table with (tb := tb).
    + exact Hok.
    + reflexivity.
    + reflexivity.
  - intros k v Hin.
    pose proof (given_In data k v (NoDup_keys_remove "table" kw Hwf) Hin)
      as Hg.
    unfold column, columns. cbn [index_of].
    destruct (String.eqb k "id") eqn:E.
    + apply String.eqb_eq in E. subst k. simpl.
      rewrite Hg in Hnew. unfold new_id in Hnew.
      destruct v; try discriminate.
      destruct (has_id z tb); [discriminate|]. now inversion Hnew.
    + assert (Hk : In k (t_columns tb)).
      { destruct (Hcols k) as [Q|Hk']; auto.
        - apply in_map_iff. exists (k, v). auto.
        - subst k. discriminate. }
      destruct (index_of_In _ _ Hk) as [j Hj]. rewrite Hj. simpl.
      unfold row, fresh_row. simpl.
      rewrite (nth_index_of_map _ k _ j VNone Hj). now rewrite Hg.
  - intros Hnoid Hpos.
    assert (Hg : given "id" (keys data) (values data) = None).
    { subst data. unfold insert_data.
      rewrite given_keys_values, get_remove_other; auto. }
    rewrite Hg in Hnew. simpl in Hnew. inversion Hnew.
    unfold next_id. destruct (map fst (t_rows tb)) as [|m l] eqn:El; [lia|].
    destruct (fold_max_le l m) as [Hm _].
    specialize (Hpos m (or_introl eq_refl)). lia.
Qed.

End OnReferenceStore.

(* ================================================================== *)
(** ** More of the query builder and of the endpoints                  *)
(* ================================================================== *)

Section MoreOfTheCode.

Context {conn : Type} `{Sqlite3 conn} `{Builtins} `{Pydantic}.

Implicit Types (kw : kwargs) (self : SQLiteManager conn).

(** *** The driver calls of one operation *)

Lemma issued_of_calls {A : Type} (m : M conn A) self l :
  calls (snd (m self)) = calls self ++ l -> issued m self = l.
Proof. unfold issued. intros ->. apply skipn_length_app. Qed.

(** The three ways [try: execute; return attribute  except: rollback;
    raise] can go; there is no fourth. *)
Lemma guarded_outcome {A : Type} (attr : conn -> A) Q P self :
  let m := try_except
             (execute Q P ;; (fun s => (Ok (attr (self_conn s)), s)))
             (fun e => rollback ;; raise e) in
  (fst (cur_execute Q P (self_conn self)) = None
   /\ m self = (Ok (attr (snd (cur_execute Q P (self_conn self)))),
                after_execute Q P self)
   /\ calls (snd (m self)) = calls self ++ [Execute Q P])
  \/ (exists e,
         fst (cur_execute Q P (self_conn self)) = Some e
         /\ fst (m self) = Raise (Sqlite3Error e)
         /\ calls (snd (m self)) = calls self ++ [Execute Q P; Rollback]).
Proof.
  intros m. unfold m. rewrite guarded_execute.
  destruct (fst (cur_execute Q P (self_conn self))) as [e|].
  - right. exists e. repeat split. simpl. now rewrite <- app_assoc.
  - left. repeat split.
Qed.

Lemma select_cases kw self :
  (exists e, select kw self = (Raise e, self)
             /\ ((exists msg, e = ValueError msg)
                 \/ (exists msg, e = TypeError msg)))
  \/ (exists cols, truthy (table_of kw) = true
                   /\ join ", " (options_of kw) = Ok cols).
Proof.
  destruct (truthy (table_of kw)) eqn:Ht.
  - destruct (join ", " (options_of kw)) as [cols|e] eqn:Hj.
    + right. eauto.
    + left. exists e. split.
      * unfold select, table_of, options_of, pop in *. simpl in *.
        rewrite Ht. simpl. unfold bind, lift. now rewrite Hj.
      * right. unfold join in Hj.
        destruct (options_of kw); try (inversion Hj; eauto; fail).
        -- destruct (all_str l); inversion Hj; eauto.
        -- destruct (all_str (map fst d)); inversion Hj; eauto.
  - left. eexists. split.
    + unfold select, table_of, pop in *. simpl in *. rewrite Ht.
      reflexivity.
    + left. eauto.
Qed.

Lemma insert_outcome kw self : write_outcome (insert kw) self.
Proof.
  unfold write_outcome.
  destruct (insert_cases kw self) as [[msg E]|[Ht Hd]]; [left; eauto|].
  right. rewrite (insert_runs kw self Ht Hd). unfold lastrowid.
  match goal with
  | |- context [execute ?Q ?P] =>
      destruct (guarded_outcome cur_lastrowid Q P self)
        as [(E & R & _)|(e & E & R & C)]
  end.
  - left. do 3 eexists. split; [exact E | exact R].
  - right. do 3 eexists. split; [exact E|]. split; [exact R | exact C].
Qed.

Lemma update_outcome kw self : write_outcome (update kw) self.
Proof.
  unfold write_outcome.
  destruct (update_cases kw self) as [[msg E]|(Ht & Hd & Hi & Hf)];
    [left; eauto|].
  right. rewrite (update_runs kw self Ht Hd Hi Hf). unfold rowcount.
  match goal with
  | |- context [execute ?Q ?P] =>
      destruct (guarded_outcome cur_rowcount Q P self)
        as [(E & R & _)|(e & E & R & C)]
  end.
  - left. do 3 eexists. split; [exact E | exact R].
  - right. do 3 eexists. split; [exact E|]. split; [exact R | exact C].
Qed.

Lemma delete_outcome kw self : write_outcome (delete kw) self.
Proof.
  unfold write_outcome.
  destruct (delete_cases kw self) as [[msg E]|[Ht Hd]]; [left; eauto|].
  right. rewrite (delete_runs kw self Ht Hd). unfold rowcount.
  match goal with
  | |- context [execute ?Q ?P] =>
      destruct (guarded_outcome cur_rowcount Q P self)
        as [(E & R & _)|(e & E & R & C)]
  end.
  - left. do 3 eexists. split; [exact E | exact R].
  - right. do 3 eexists. split; [exact E|]. split; [exact R | exact C].
Qed.

Lemma select_outcome kw self : read_outcome (select kw) self.
Proof.
  unfold read_outcome.
  destruct (select_cases kw self) as [(e & E & K)|(cols & Ht & Hj)];
    [left; eauto|].
  right. rewrite (select_runs kw self cols Ht Hj).
  unfold bind, execute, fetchall, after_execute.
  match goal with
  | |- context [cur_execute ?Q ?P (self_conn self)] =>
      destruct (fst (cur_execute Q P (self_conn self))) as [e|] eqn:E
  end.
  - right. do 3 eexists. split; [exact E | reflexivity].
  - left. do 2 eexists. split; [exact E|]. split; [reflexivity|].
    simpl. now rewrite <- app_assoc.
Qed.

(** The calls a writing operation and a reading operation leave in the
    history. *)
Lemma write_outcome_calls {A : Type} (m : M conn A) self :
  write_outcome m self ->
  exists l, calls (snd (m self)) = calls self ++ l
            /\ (l = [] \/ (exists q ps, l = [Execute q ps])
                \/ (exists q ps, l = [Execute q ps; Rollback])).
Proof.
  intros [(msg & E)|[(q & ps & a & _ & E)|(q & ps & e & _ & _ & C)]].
  - exists []. rewrite E, app_nil_r. auto.
  - exists [Execute q ps]. rewrite E. split; [reflexivity|]. right. left. eauto.
  - exists [Execute q ps; Rollback]. split; [exact C|]. right. right. eauto.
Qed.

Lemma read_outcome_calls (m : M conn (list row)) self :
  read_outcome m self ->
  exists l, calls (snd (m self)) = calls self ++ l
            /\ (l = [] \/ (exists q ps, l = [Execute q ps])
                \/ (exists q ps, l = [Execute q ps; Fetchall])).
Proof.
  intros [(e & E & _)|[(q & ps & _ & _ & C)|(q & ps & e & _ & E)]].
  - exists []. rewrite E, app_nil_r. auto.
  - exists [Execute q ps; Fetchall]. split; [exact C|]. right. right. eauto.
  - exists [Execute q ps]. rewrite E. split; [reflexivity|]. right. left. eauto.
Qed.

(** X2. [insert], [update] and [delete] make at most one attempt on the
    store: either the arguments are refused with a [ValueError] and
    nothing is called, or the one statement is executed and accepted, or
    it is rejected and followed by exactly one rollback and the store's
    error. *)
Theorem writes_attempt_once :
  forall kw self,
    write_outcome (insert kw) self
    /\ write_outcome (update kw) self
    /\ write_outcome (delete kw) self.
Proof.
  intros kw self.
  split; [apply insert_outcome|split; [apply update_outcome|]].
  apply delete_outcome.
Qed.

(** X3. [select] has no error handling of its own: when the store
    rejects its statement the store's error is raised as it is, with
    neither rollback nor fetch, and when its arguments are refused
    nothing is called at all; otherwise it returns what [fetchall]
    gives, rows or no rows. *)
Theorem select_reads_or_fails_plainly :
  forall kw self, read_outcome (select kw) self.
Proof. intros kw self. apply select_outcome. Qed.

(** X4. No operation of the query builder commits: whatever the
    arguments and whatever the store answers, [select], [insert],
    [update] and [delete] never call [commit] (that is left to
    [__exit__]), and [select] never calls [rollback] either. *)
Theorem operations_never_commit :
  forall kw self,
    ~ In Commit (issued (select kw) self)
    /\ ~ In Rollback (issued (select kw) self)
    /\ ~ In Commit (issued (insert kw) self)
    /\ ~ In Commit (issued (update kw) self)
    /\ ~ In Commit (issued (delete kw) self).
Proof.
  assert (W : forall (A : Type) (m : M conn A) self,
             write_outcome m self -> ~ In Commit (issued m self)).
  { intros A m self O.
    destruct (write_outcome_calls m self O) as (l & C & K).
    rewrite (issued_of_calls m self l C).
    destruct K as [->|[(q & ps & ->)|(q & ps & ->)]]; simpl;
      intuition discriminate. }
  intros kw self.
  destruct (read_outcome_calls _ self (select_outcome kw self))
    as (l & C & K).
  rewrite (issued_of_calls _ self l C).
  repeat split.
  - destruct K as [->|[(q & ps & ->)|(q & ps & ->)]]; simpl;
      intuition discriminate.
  - destruct K as [->|[(q & ps & ->)|(q & ps & ->)]]; simpl;
      intuition discriminate.
  - apply W, insert_outcome.
  - apply W, update_outcome.
  - apply W, delete_outcome.
Qed.

(** *** Validation of the control arguments *)

Lemma data_of_get kw :
  data_of kw = match get "data" kw with Some v => v | None => VNone end.
Proof.
  unfold data_of, pop. simpl. now rewrite get_remove_other by reflexivity.
Qed.

Lemma options_of_get kw :
  options_of kw
  = match get "options" kw with Some v => v | None => VList [VStr "*"] end.
Proof.
  unfold options_of, pop. simpl. now rewrite get_remove_other by reflexivity.
Qed.

(** X1. [update] insists on its [data] argument: when the table is given
    but [data] is missing, is an empty dictionary, or is not a
    dictionary at all, it raises the "data is required" [ValueError] and
    calls nothing, whether or not filters were supplied. *)
Theorem update_requires_data_dict :
  forall kw self,
    truthy (table_of kw) = true ->
    (get "data" kw = None
     \/ get "data" kw = Some (VDict [])
     \/ exists v, get "data" kw = Some v /\ isinstance_dict v = false) ->
    update kw self = (Raise (ValueError msg_update_data), self)
    /\ issued (update kw) self = [].
Proof.
  intros kw self Ht Hd.
  assert (K : truthy (data_of kw) = false
              \/ isinstance_dict (data_of kw) = false).
  { rewrite data_of_get.
    destruct Hd as [->|[->|(v & -> & Hv)]]; auto. }
  assert (E : update kw self = (Raise (ValueError msg_update_data), self)).
  { unfold update, table_of, data_of, pop in *. simpl in *. rewrite Ht.
    simpl. destruct K as [-> | ->]; simpl; [reflexivity|].
    now rewrite orb_true_r. }
  split; [exact E | eapply issued_nothing; eauto].
Qed.

Lemma all_str_not_str l x :
  In x l -> (forall s, x <> VStr s) -> all_str l = None.
Proof.
  induction l as [|y l IH]; simpl; [tauto|].
  intros [->|Hin] Hx.
  - destruct x; try reflexivity. now specialize (Hx s).
  - rewrite (IH Hin Hx). destruct y; reflexivity.
Qed.

(** X8. [select] joins its [options] as they come: when the table is
    given and [options] is [None], a boolean, an integer, or a list with
    an item that is not a string, the call raises a [TypeError] and
    nothing is sent to the store. *)
Theorem select_rejects_options_that_are_not_strings :
  forall kw self o,
    truthy (table_of kw) = true ->
    get "options" kw = Some o ->
    (o = VNone \/ (exists b, o = VBool b) \/ (exists z, o = VInt z)
     \/ exists l x, o = VList l /\ In x l /\ forall s, x <> VStr s) ->
    (exists msg, select kw self = (Raise (TypeError msg), self))
    /\ issued (select kw) self = [].
Proof.
  intros kw self o Ht Ho Hbad.
  assert (J : exists msg, join ", " (options_of kw) = Raise (TypeError msg)).
  { rewrite options_of_get, Ho.
    destruct Hbad as [->|[[b ->]|[[z ->]|(l & x & -> & Hin & Hx)]]];
      simpl; eauto.
    rewrite (all_str_not_str l x Hin Hx). eauto. }
  destruct J as [msg Hj].
  assert (E : select kw self = (Raise (TypeError msg), self)).
  { unfold select, table_of, options_of, pop in *. simpl in *.
    rewrite Ht. simpl. unfold bind, lift. now rewrite Hj. }
  split; [eauto | eapply issued_nothing; eauto].
Qed.

(** *** Where the control arguments stand among the keyword arguments *)

Lemma pop_front k v kw default :
  pop k default ((k, v) :: remove k kw) = (v, remove k kw).
Proof.
  unfold pop. simpl. rewrite String.eqb_refl. simpl.
  now rewrite remove_remove_same.
Qed.

Lemma pop_get k v kw default :
  get k kw = Some v -> pop k default kw = (v, remove k kw).
Proof. unfold pop. now intros ->. Qed.

(** X12. Only the presence of [table] among the keyword arguments
    counts, not its place: every operation does the same when [table]
    is moved to the front, the other arguments keeping their order. *)
Theorem table_argument_may_stand_anywhere :
  forall kw self t,
    get "table" kw = Some t ->
    let front := ("table", t) :: remove "table" kw in
    select kw self = select front self
    /\ insert kw self = insert front self
    /\ update kw self = update front self
    /\ delete kw self = delete front self.
Proof.
  intros kw self t Ht front. subst front.
  unfold select, insert, update, delete.
  rewrite (pop_get _ _ _ VNone Ht), pop_front.
  repeat split.
Qed.

(** *** The statements of the writing operations *)

Lemma insert_reaches_driver kw self :
  let sent := truthy (table_of kw) && nonempty (insert_data kw) in
  statements (issued (insert kw) self)
  = (if sent then [insert_text (table_of kw) (keys (insert_data kw))]
     else [])
  /\ bound_params (issued (insert kw) self)
     = (if sent then [values (insert_data kw)] else []).
Proof.
  intros sent. subst sent.
  destruct (insert_cases kw self) as [[msg E]|[Ht Hd]].
  - rewrite (issued_nothing _ _ _ E).
    destruct (truthy (table_of kw)) eqn:Ht; [|split; reflexivity].
    destruct (insert_data kw) eqn:Hd; [split; reflexivity|].
    rewrite insert_runs in E; [|exact Ht|rewrite Hd; discriminate].
    unfold lastrowid in E. rewrite (guarded_execute cur_lastrowid) in E.
    destruct (fst (cur_execute _ _ _)); inversion E.
  - assert (N : nonempty (insert_data kw) = true)
      by (destruct (insert_data kw); [congruence | reflexivity]).
    rewrite Ht, N. simpl andb. cbv iota.
    erewrite issued_ext by (apply insert_runs; auto).
    unfold lastrowid. rewrite (issued_guarded cur_lastrowid).
    unfold insert_text, keys, values. rewrite !length_map.
    destruct (fst (cur_execute _ _ _)); split; reflexivity.
Qed.

Lemma update_reaches_driver kw self :
  let sent := truthy (table_of kw) && truthy (data_of kw)
              && isinstance_dict (data_of kw)
              && nonempty (update_filters kw) in
  statements (issued (update kw) self)
  = (if sent
     then [update_text (table_of kw) (dict_keys (data_of kw))
             (keys (update_filters kw))]
     else [])
  /\ bound_params (issued (update kw) self)
     = (if sent
        then [dict_values (data_of kw) ++ values (update_filters kw)]
        else []).
Proof.
  intros sent. subst sent.
  destruct (update_cases kw self) as [[msg E]|(Ht & Hd & Hi & Hf)].
  - rewrite (issued_nothing _ _ _ E).
    destruct (truthy (table_of kw)) eqn:Ht; [|split; reflexivity].
    destruct (truthy (data_of kw)) eqn:Hd; [|split; reflexivity].
    destruct (isinstance_dict (data_of kw)) eqn:Hi; [|split; reflexivity].
    destruct (update_filters kw) eqn:Hf; [split; reflexivity|].
    rewrite update_runs in E;
      [|exact Ht|exact Hd|exact Hi|rewrite Hf; discriminate].
    unfold rowcount in E. rewrite (guarded_execute cur_rowcount) in E.
    destruct (fst (cur_execute _ _ _)); inversion E.
  - assert (N : nonempty (update_filters kw) = true)
      by (destruct (update_filters kw); [congruence | reflexivity]).
    rewrite Ht, Hd, Hi, N. simpl andb. cbv iota.
    erewrite issued_ext by (apply update_runs; auto).
    unfold rowcount. rewrite (issued_guarded cur_rowcount).
    unfold update_text.
    destruct (fst (cur_execute _ _ _)); split; reflexivity.
Qed.

Lemma delete_reaches_driver kw self :
  let sent := truthy (table_of kw) && nonempty (delete_filters kw) in
  statements (issued (delete kw) self)
  = (if sent then [delete_text (table_of kw) (keys (delete_filters kw))]
     else [])
  /\ bound_params (issued (delete kw) self)
     = (if sent then [values (delete_filters kw)] else []).
Proof.
  intros sent. subst sent.
  destruct (delete_cases kw self) as [[msg E]|[Ht Hd]].
  - rewrite (issued_nothing _ _ _ E).
    destruct (truthy (table_of kw)) eqn:Ht; [|split; reflexivity].
    destruct (delete_filters kw) eqn:Hd; [split; reflexivity|].
    rewrite delete_runs in E; [|exact Ht|rewrite Hd; discriminate].
    unfold rowcount in E. rewrite (guarded_execute cur_rowcount) in E.
    destruct (fst (cur_execute _ _ _)); inversion E.
  - assert (N : nonempty (delete_filters kw) = true)
      by (destruct (delete_filters kw); [congruence | reflexivity]).
    rewrite Ht, N. simpl andb. cbv iota.
    erewrite issued_ext by (apply delete_runs; auto).
    unfold rowcount. rewrite (issued_guarded cur_rowcount).
    unfold delete_text.
    destruct (fst (cur_execute _ _ _)); split; reflexivity.
Qed.

Lemma dict_keys_decide_data (d d' : value) :
  dict_keys d = dict_keys d' ->
  truthy d && isinstance_dict d = truthy d' && isinstance_dict d'.
Proof.
  destruct d as [| | | | |l], d' as [| | | | |l']; simpl;
    rewrite ?andb_false_r; try reflexivity.
  - destruct l' as [|x l']; [reflexivity | discriminate].
  - destruct l' as [|x l']; [reflexivity | discriminate].
  - destruct l' as [|x l']; [reflexivity | discriminate].
  - destruct l' as [|x l']; [reflexivity | discriminate].
  - destruct l' as [|x l']; [reflexivity | discriminate].
  - destruct l as [|x l]; [reflexivity | discriminate].
  - destruct l as [|x l]; [reflexivity | discriminate].
  - destruct l as [|x l]; [reflexivity | discriminate].
  - destruct l as [|x l]; [reflexivity | discriminate].
  - destruct l as [|x l]; [reflexivity | discriminate].
  - destruct l, l'; simpl; try reflexivity; discriminate.
Qed.

Lemma nonempty_keys (kw kw' : kwargs) :
  keys kw = keys kw' -> nonempty kw = nonempty kw'.
Proof. destruct kw, kw'; simpl; auto; discriminate. Qed.

(** X5. In [insert], [update] and [delete], as in [select], the values
    never reach the statement text: two calls that agree on the table and
    on the names of the columns and filters send the same text to the
    store, whatever values they carry. *)
Theorem write_text_ignores_values :
  forall kw1 kw2 self1 self2,
    table_of kw1 = table_of kw2 ->
    (keys (insert_data kw1) = keys (insert_data kw2) ->
     statements (issued (insert kw1) self1)
     = statements (issued (insert kw2) self2))
    /\ (dict_keys (data_of kw1) = dict_keys (data_of kw2) ->
        keys (update_filters kw1) = keys (update_filters kw2) ->
        statements (issued (update kw1) self1)
        = statements (issued (update kw2) self2))
    /\ (keys (delete_filters kw1) = keys (delete_filters kw2) ->
        statements (issued (delete kw1) self1)
        = statements (issued (delete kw2) self2)).
Proof.
  intros kw1 kw2 self1 self2 Ht. split; [|split].
  - intros Hk.
    rewrite (proj1 (insert_reaches_driver kw1 self1)).
    rewrite (proj1 (insert_reaches_driver kw2 self2)).
    now rewrite Ht, Hk, (nonempty_keys _ _ Hk).
  - intros Hd Hk.
    rewrite (proj1 (update_reaches_driver kw1 self1)).
    rewrite (proj1 (update_reaches_driver kw2 self2)).
    rewrite <- !andb_assoc.
    rewrite (andb_assoc (truthy (data_of kw1))).
    rewrite (andb_assoc (truthy (data_of kw2))).
    now rewrite Ht, Hd, Hk, (dict_keys_decide_data _ _ Hd),
      (nonempty_keys _ _ Hk).
  - intros Hk.
    rewrite (proj1 (delete_reaches_driver kw1 self1)).
    rewrite (proj1 (delete_reaches_driver kw2 self2)).
    now rewrite Ht, Hk, (nonempty_keys _ _ Hk).
Qed.

(** X6. With a table and at least one filter, [delete] executes exactly
    [DELETE FROM table WHERE k1 = ? AND k2 = ? ...] with the filter values
    bound in the filters' order, and when the store accepts it the result
    is the cursor's [rowcount] and nothing else has been called. *)
Theorem delete_sends_one_filtered_statement :
  forall kw self,
    truthy (table_of kw) = true ->
    delete_filters kw <> [] ->
    let query := delete_text (table_of kw) (keys (delete_filters kw)) in
    let params := values (delete_filters kw) in
    let reply := cur_execute query params (self_conn self) in
    hd_error (issued (delete kw) self) = Some (Execute query params)
    /\ List.length params = List.length (keys (delete_filters kw))
    /\ (fst reply = None ->
        delete kw self
        = (Ok (cur_rowcount (snd reply)), after_execute query params self)).
Proof.
  intros kw self Ht Hf query params reply. subst query params reply.
  unfold delete_text. repeat split.
  - erewrite issued_ext by (apply delete_runs; auto).
    unfold rowcount. rewrite (issued_guarded cur_rowcount).
    destruct (fst (cur_execute _ _ _)); reflexivity.
  - unfold values, keys. now rewrite !length_map.
  - intros Hr. rewrite delete_runs by auto.
    unfold rowcount. rewrite (guarded_execute cur_rowcount), Hr.
    reflexivity.
Qed.

(** X7. With a table, a non-empty [data] dictionary and at least one
    filter, [update] executes exactly [UPDATE table SET c1 = ?, c2 = ? ...
    WHERE k1 = ? AND k2 = ? ...], the columns being the keys of [data] in
    the dictionary's order, and when the store accepts it the result is
    the cursor's [rowcount] and nothing else has been called. *)
Theorem update_sends_one_filtered_statement :
  forall kw self d,
    truthy (table_of kw) = true ->
    get "data" kw = Some (VDict d) ->
    d <> [] ->
    update_filters kw <> [] ->
    let query :=
      update_text (table_of kw) (map fst d) (keys (update_filters kw)) in
    let params := map snd d ++ values (update_filters kw) in
    let reply := cur_execute query params (self_conn self) in
    hd_error (issued (update kw) self) = Some (Execute query params)
    /\ (fst reply = None ->
        update kw self
        = (Ok (cur_rowcount (snd reply)), after_execute query params self)).
Proof.
  intros kw self d Ht Hd Hne Hf query params reply.
  subst query params reply.
  assert (D : data_of kw = VDict d) by (now rewrite data_of_get, Hd).
  assert (Td : truthy (data_of kw) = true)
    by (rewrite D; destruct d; [congruence | reflexivity]).
  assert (Id : isinstance_dict (data_of kw) = true) by now rewrite D.
  unfold update_text.
  change (map fst d) with (dict_keys (VDict d)).
  change (map snd d) with (dict_values (VDict d)). rewrite <- D.
  split.
  - erewrite issued_ext by (apply update_runs; auto).
    unfold rowcount. rewrite (issued_guarded cur_rowcount).
    destruct (fst (cur_execute _ _ _)); reflexivity.
  - intros Hr. rewrite update_runs by auto.
    unfold rowcount. rewrite (guarded_execute cur_rowcount), Hr.
    reflexivity.
Qed.

(** *** Operations inside a [with] block *)

Lemma with_history {A : Type} (mgr : SQLiteManager conn) (body : M conn A) :
  fst (with_ mgr body) = fst (body mgr)
  /\ calls (snd (with_ mgr body))
     = calls (snd (body mgr))
       ++ match fst (body mgr) with
          | Raise _ => [Rollback; Commit]
          | Ok _ => [Commit]
          end.
Proof.
  unfold with_, __enter__.
  destruct (body mgr) as [[a|e] s]; simpl; split; auto.
  now rewrite <- app_assoc.
Qed.

Lemma write_rejected {A : Type} (m : M conn A) self q ps e :
  write_outcome m self ->
  rejected_by_store m self q ps e ->
  fst (m self) = Raise (Sqlite3Error e)
  /\ calls (snd (m self)) = calls self ++ [Execute q ps; Rollback].
Proof.
  intros O [Hhd Hrej].
  destruct O as [(msg & E)|[(q' & ps' & a & Ha & E)|(q' & ps' & e' & He & R & C)]].
  - rewrite (issued_nothing _ _ _ E) in Hhd. discriminate.
  - rewrite (issued_of_calls m self [Execute q' ps']) in Hhd
      by (rewrite E; reflexivity).
    inversion Hhd. subst. congruence.
  - rewrite (issued_of_calls m self _ C) in Hhd.
    inversion Hhd. subst. rewrite Hrej in He. inversion He. subst. auto.
Qed.

Lemma read_rejected (m : M conn (list row)) self q ps e :
  read_outcome m self ->
  rejected_by_store m self q ps e ->
  fst (m self) = Raise (Sqlite3Error e)
  /\ calls (snd (m self)) = calls self ++ [Execute q ps].
Proof.
  intros O [Hhd Hrej].
  destruct O as [(x & E & _)|[(q' & ps' & Ha & _ & C)|(q' & ps' & e' & He & E)]].
  - rewrite (issued_nothing _ _ _ E) in Hhd. discriminate.
  - rewrite (issued_of_calls m self _ C) in Hhd.
    inversion Hhd. subst. congruence.
  - rewrite (issued_of_calls m self [Execute q' ps']) in Hhd
      by (rewrite E; reflexivity).
    inversion Hhd. subst. rewrite Hrej in He. inversion He. subst.
    rewrite E. auto.
Qed.

(** X9. Inside a [with] block a rejected statement is rolled back twice
    when it comes from [insert], [update] or [delete] (once by the
    operation, once by [__exit__]) and once when it comes from [select];
    in every case a commit follows and the store's error leaves the
    block unchanged. *)
Theorem rejected_statement_inside_with_block :
  forall kw (mgr : SQLiteManager conn) q ps e,
    (rejected_by_store (insert kw) mgr q ps e ->
     fst (with_ mgr (insert kw)) = Raise (Sqlite3Error e)
     /\ calls (snd (with_ mgr (insert kw)))
        = calls mgr ++ [Execute q ps; Rollback; Rollback; Commit])
    /\ (rejected_by_store (update kw) mgr q ps e ->
        fst (with_ mgr (update kw)) = Raise (Sqlite3Error e)
        /\ calls (snd (with_ mgr (update kw)))
           = calls mgr ++ [Execute q ps; Rollback; Rollback; Commit])
    /\ (rejected_by_store (delete kw) mgr q ps e ->
        fst (with_ mgr (delete kw)) = Raise (Sqlite3Error e)
        /\ calls (snd (with_ mgr (delete kw)))
           = calls mgr ++ [Execute q ps; Rollback; Rollback; Commit])
    /\ (rejected_by_store (select kw) mgr q ps e ->
        fst (with_ mgr (select kw)) = Raise (Sqlite3Error e)
        /\ calls (snd (with_ mgr (select kw)))
           = calls mgr ++ [Execute q ps; Rollback; Commit]).
Proof.
  assert (W : forall (A : Type) (m : M conn A) mgr q ps e,
             write_outcome m mgr -> rejected_by_store m mgr q ps e ->
             fst (with_ mgr m) = Raise (Sqlite3Error e)
             /\ calls (snd (with_ mgr m))
                = calls mgr ++ [Execute q ps; Rollback; Rollback; Commit]).
  { intros A m mgr q ps e O R.
    destruct (write_rejected m mgr q ps e O R) as [F C].
    destruct (with_history mgr m) as [F' C'].
    rewrite F', C', C, F, <- app_assoc. auto. }
  intros kw mgr q ps e. split; [|split; [|split]]; intros R.
  - apply W; auto using insert_outcome.
  - apply W; auto using update_outcome.
  - apply W; auto using delete_outcome.
  - destruct (read_rejected _ mgr q ps e (select_outcome kw mgr) R) as [F C].
    destruct (with_history mgr (select kw)) as [F' C'].
    rewrite F', C', C, F, <- app_assoc. auto.
Qed.

(** *** The endpoints *)

Lemma comprehension_cons {A B : Type} (f : A -> M conn B) a l s :
  comprehension f (a :: l) s
  = match f a s with
    | (Ok b, s') =>
        match comprehension f l s' with
        | (Ok bs, s'') => (Ok (b :: bs), s'')
        | (Raise e, s'') => (Raise e, s'')
        end
    | (Raise e, s') => (Raise e, s')
    end.
Proof.
  cbn [comprehension]. unfold bind, ret.
  destruct (f a s) as [[b|e] s']; [|reflexivity].
  destruct (comprehension f l s') as [[bs|e] s'']; reflexivity.
Qed.

Lemma comprehension_pure {A B : Type} (f : A -> M conn B)
  (g : A -> result B) :
  (forall a s, f a s = (g a, s)) ->
  forall l s,
    snd (comprehension f l s) = s
    /\ (forall bs, fst (comprehension f l s) = Ok bs
                   <-> Forall2 (fun a b => g a = Ok b) l bs)
    /\ (forall e, fst (comprehension f l s) = Raise e ->
                  exists a, In a l /\ g a = Raise e).
Proof.
  intros Hf l s. induction l as [|a l (IHs & IHok & IHerr)].
  - simpl. repeat split.
    + intros Q. inversion Q. constructor.
    + intros Q. inversion Q. reflexivity.
    + intros e Q. discriminate.
  - rewrite comprehension_cons, Hf.
    destruct (g a) as [b|e] eqn:Ga.
    + destruct (comprehension f l s) as [[bs|e] s'] eqn:C; simpl in *.
      * subst s'. repeat split.
        -- intros Q. inversion Q. subst. constructor; auto.
           now apply IHok.
        -- intros Q. inversion Q as [|? b' ? bs' Gb Hbs]. subst.
           apply IHok in Hbs. inversion Hbs. congruence.
        -- intros e Q. discriminate.
      * subst s'. repeat split.
        -- intros Q. discriminate.
        -- intros Q. inversion Q as [|? b' ? bs' Gb Hbs]. subst.
           apply IHok in Hbs. discriminate.
        -- intros e' Q. inversion Q. subst.
           destruct (IHerr e' eq_refl) as (x & Hin & Gx).
           exists x. split; [now right | exact Gx].
    + simpl. repeat split.
      * intros Q. discriminate.
      * intros Q. inversion Q. congruence.
      * intros e' Q. inversion Q. subst. exists a. split; [now left | exact Ga].
Qed.

Lemma user_of_row_pure (r : row) (s : SQLiteManager conn) :
  user_of_row r s
  = (match r with
     | r0 :: r1 :: r2 :: _ => new_User r0 r1 r2
     | _ => Raise (IndexError "index out of range")
     end, s).
Proof.
  destruct r as [|r0 [|r1 [|r2 r]]]; try reflexivity.
  all: unfold user_of_row, bind, lift; simpl;
    destruct (new_User r0 r1 r2); reflexivity.
Qed.

Lemma password_of_row_pure (r : row) (s : SQLiteManager conn) :
  password_of_row r s
  = (match r with
     | r0 :: r1 :: r2 :: _ => new_Password r0 r1 r2
     | _ => Raise (IndexError "index out of range")
     end, s).
Proof.
  destruct r as [|r0 [|r1 [|r2 r]]]; try reflexivity.
  all: unfold password_of_row, bind, lift; simpl;
    destruct (new_Password r0 r1 r2); reflexivity.
Qed.

(** What a listing endpoint answers, from the outcome of its [select]. *)
Lemma listing_answer {B : Type} (of_row : row -> M conn B)
  (g : row -> result B) (database : string) (kw : kwargs) :
  (forall r s, of_row r s = (g r, s)) ->
  (forall r code detail, g r <> Raise (HTTPException code detail)) ->
  let answer :=
    fst (with_ (__init__ database)
           (results <- select kw ;; comprehension of_row results)) in
  let selected := fst (select kw (__init__ database)) in
  (forall rows bs, selected = Ok rows ->
                   (answer = Ok bs
                    <-> Forall2 (fun r b => g r = Ok b) rows bs))
  /\ (forall e, selected = Raise e -> answer = Raise e)
  /\ (forall code detail, answer <> Raise (HTTPException code detail)).
Proof.
  intros Hpure Hhttp answer selected. subst answer selected.
  rewrite (proj1 (with_history _ _)). unfold __enter__, bind.
  pose proof (select_outcome kw (__init__ database)) as O.
  destruct (select kw (__init__ database)) as [[rows|e] s] eqn:S; simpl.
  - destruct (comprehension_pure of_row g Hpure rows s) as (_ & Hok & Herr).
    split; [|split].
    + intros rows' bs Q. inversion Q. subst. apply Hok.
    + discriminate.
    + intros code detail Q. apply Herr in Q as (r & _ & Gr).
      now apply Hhttp in Gr.
  - split; [|split].
    + discriminate.
    + intros e' Q. inversion Q. reflexivity.
    + intros code detail Q. inversion Q. subst.
      destruct O
        as [(x & E & [[m ->]|[m ->]])
           |[(q & ps & _ & F & _)|(q & ps & x & _ & E)]];
        rewrite S in *; simpl in *; try discriminate; inversion E.
Qed.

(** X10. [get_users] and [get_passwords] answer with one record per row
    of their [select], in the same order, each built from the first
    three positions of its row, or not at all: a single row that is too
    short or fails validation makes the whole listing fail. An
    exception of [select] is passed on as it is, an empty table gives
    the empty list, and a listing never answers 404. *)
Theorem listings_map_every_row :
  forall database : string,
    let users :=
      fst (select [("table", VStr "users")] (__init__ database)) in
    let passwords :=
      fst (select [("table", VStr "passwords")] (__init__ database)) in
    ((forall rows us,
         users = Ok rows ->
         (fst (get_users database) = Ok us
          <-> Forall2
                (fun r u =>
                   match r with
                   | r0 :: r1 :: r2 :: _ => new_User r0 r1 r2
                   | _ => Raise (IndexError "index out of range")
                   end = Ok u) rows us))
     /\ (forall e, users = Raise e -> fst (get_users database) = Raise e)
     /\ (forall code detail,
            fst (get_users database) <> Raise (HTTPException code detail)))
    /\ ((forall rows ps,
            passwords = Ok rows ->
            (fst (get_passwords database) = Ok ps
             <-> Forall2
                   (fun r p =>
                      match r with
                      | r0 :: r1 :: r2 :: _ => new_Password r0 r1 r2
                      | _ => Raise (IndexError "index out of range")
                      end = Ok p) rows ps))
        /\ (forall e, passwords = Raise e ->
                      fst (get_passwords database) = Raise e)
        /\ (forall code detail,
               fst (get_passwords database)
               <> Raise (HTTPException code detail))).
Proof.
  intros database users passwords. split.
  - apply (listing_answer user_of_row
             (fun r => match r with
                       | r0 :: r1 :: r2 :: _ => new_User r0 r1 r2
                       | _ => Raise (IndexError "index out of range")
                       end)).
    + apply user_of_row_pure.
    + intros [|r0 [|r1 [|r2 r]]] code detail; try discriminate.
      apply new_User_not_http.
  - apply (listing_answer password_of_row
             (fun r => match r with
                       | r0 :: r1 :: r2 :: _ => new_Password r0 r1 r2
                       | _ => Raise (IndexError "index out of range")
                       end)).
    + apply password_of_row_pure.
    + intros [|r0 [|r1 [|r2 r]]] code detail; try discriminate.
      apply new_Password_not_http.
Qed.

(** The driver calls of a lookup endpoint. *)
Lemma lookup_history {B : Type} (of_row : row -> M conn B)
  (g : row -> result B) (detail : string) (database t : string) (id : Z) :
  (forall r s, of_row r s = (g r, s)) ->
  t <> "" ->
  let query := ("SELECT " +++ "*" +++ " FROM " +++ t) +++ " WHERE id = ?" in
  let reply := cur_execute query [VInt id] (sqlite3_connect database) in
  let answer :=
    with_ (__init__ database)
      (result <-
         try_except
           (rows <- select [("table", VStr t); ("id", VInt id)] ;;
            lift (subscript rows 0))
           (except_IndexError detail) ;;
       of_row result) in
  calls (snd answer)
  = Execute query [VInt id]
    :: match fst reply with None => [Fetchall] | Some _ => [] end
    ++ match fst answer with
       | Ok _ => [Commit]
       | Raise _ => [Rollback; Commit]
       end.
Proof.
  intros Hpure Ht query reply answer. subst query reply answer.
  destruct (with_history (__init__ database)
              (result <-
                 try_except
                   (rows <- select [("table", VStr t); ("id", VInt id)] ;;
                    lift (subscript rows 0))
                   (except_IndexError detail) ;;
               of_row result)) as [F C].
  rewrite C, F. clear C F.
  assert (S : select [("table", VStr t); ("id", VInt id)] (__init__ database)
              = (execute
                   (("SELECT " +++ "*" +++ " FROM " +++ t)
                    +++ " WHERE id = ?") [VInt id] ;;
                 fetchall) (__init__ database)).
  { rewrite (select_runs _ _ "*"); [reflexivity| |reflexivity].
    unfold table_of, pop. simpl.
    destruct (String.eqb t "") eqn:E; [|reflexivity].
    apply String.eqb_eq in E. congruence. }
  unfold bind at 1 3. unfold try_except. unfold bind at 1 3. rewrite S.
  unfold bind, execute, fetchall, lift, __init__. simpl.
  destruct (fst (cur_execute _ _ _)) as [e|]; simpl; [reflexivity|].
  destruct (cur_fetchall _) as [|r rows]; simpl; [reflexivity|].
  rewrite Hpure. simpl. destruct (g r); reflexivity.
Qed.

(** X11. [get_user] and [get_password] put exactly one statement to the
    store, the same text for every identifier, with the identifier bound
    as its only parameter. The rows are fetched if the store accepts
    it, and the block ends with a commit after an answer and with
    rollback-then-commit after any failure, the 404 included. *)
Theorem lookups_issue_one_select :
  forall (database : string) (id : Z),
    let reply t :=
      fst (cur_execute ("SELECT * FROM " +++ t +++ " WHERE id = ?")
             [VInt id] (sqlite3_connect database)) in
    calls (snd (get_user database id))
    = Execute "SELECT * FROM users WHERE id = ?" [VInt id]
      :: match reply "users" with None => [Fetchall] | Some _ => [] end
      ++ match fst (get_user database id) with
         | Ok _ => [Commit]
         | Raise _ => [Rollback; Commit]
         end
    /\ calls (snd (get_password database id))
       = Execute "SELECT * FROM passwords WHERE id = ?" [VInt id]
         :: match reply "passwords" with None => [Fetchall] | Some _ => [] end
         ++ match fst (get_password database id) with
            | Ok _ => [Commit]
            | Raise _ => [Rollback; Commit]
            end.
Proof.
  intros database id reply. subst reply. split.
  - apply (lookup_history user_of_row
             (fun r => match r with
                       | r0 :: r1 :: r2 :: _ => new_User r0 r1 r2
                       | _ => Raise (IndexError "index out of range")
                       end)
             "User not found" database "users" id);
      [apply user_of_row_pure | discriminate].
  - apply (lookup_history password_of_row
             (fun r => match r with
                       | r0 :: r1 :: r2 :: _ => new_Password r0 r1 r2
                       | _ => Raise (IndexError "index out of range")
                       end)
             "password not found" database "passwords" id);
      [apply password_of_row_pure | discriminate].
Qed.


End MoreOfTheCode.

(* ================================================================== *)
(** ** The properties at work on two database files                    *)
(* ================================================================== *)

Import RefStore.

#[local] Existing Instance sample_driver.

(** C1, as first stated, fails on a falsy table: the error is the
    "table is required" one, not the unsafe-operation one. *)
Lemma unsafe_error_not_for_every_table :
  fst (update
         [("table", VStr ""); ("data", VDict [(VStr "name", VStr "Bob")])]
         sample_manager)
  <> Raise (ValueError msg_update_unsafe)
  /\ fst (delete [("table", VStr "")] sample_manager)
     <> Raise (ValueError msg_delete_unsafe).
Proof. split; vm_compute; discriminate. Qed.

Lemma unfiltered_update_delete_rejected_on_sample :
  update [("table", VStr "users"); ("data", VDict [(VStr "name", VStr "Bob")])]
    sample_manager
  = (Raise (ValueError msg_update_unsafe), sample_manager)
  /\ delete [("table", VStr "users")] sample_manager
     = (Raise (ValueError msg_delete_unsafe), sample_manager).
Proof.
  destruct (unfiltered_update_delete_rejected
              [("table", VStr "users");
               ("data", VDict [(VStr "name", VStr "Bob")])]
              [("table", VStr "users")]
              sample_manager [(VStr "name", VStr "Bob")]
              eq_refl ltac:(discriminate) eq_refl eq_refl)
    as [[U _] [D _]].
  split; [exact U | exact D].
Defined.

Lemma falsy_table_is_missing_table_on_sample :
  select [("table", VStr ""); ("id", VInt 1)] sample_manager
  = (Raise (ValueError msg_select_table), sample_manager)
  /\ select [("id", VInt 1)] sample_manager
     = select [("table", VStr ""); ("id", VInt 1)] sample_manager.
Proof.
  exact (proj1 (falsy_table_is_missing_table
                  [("table", VStr ""); ("id", VInt 1)] sample_manager
                  (VStr "") eq_refl eq_refl)).
Defined.

(** [None] and [0] for the table, and a table that is left out. *)
Example falsy_tables_on_sample :
  fst (insert [("table", VNone); ("name", VStr "Eve")] sample_manager)
  = Raise (ValueError msg_insert_table)
  /\ fst (delete [("table", VInt 0); ("id", VInt 1)] sample_manager)
     = Raise (ValueError msg_delete_table)
  /\ fst (update [("data", VDict [(VStr "name", VStr "Eve")]); ("id", VInt 1)]
            sample_manager)
     = Raise (ValueError msg_update_table).
Proof. repeat split. Qed.

Lemma select_text_ignores_filter_values_on_sample :
  statements
    (issued (select [("table", VStr "users");
                     ("name", VStr "x'; DROP TABLE users;--")])
       sample_manager)
  = statements
      (issued (select [("table", VStr "users"); ("name", VStr "x")])
         sample_manager)
  /\ statements
       (issued (select [("table", VStr "users");
                        ("name", VStr "x'; DROP TABLE users;--")])
          sample_manager)
     = ["SELECT * FROM users WHERE name = ?"]
  /\ bound_params
       (issued (select [("table", VStr "users");
                        ("name", VStr "x'; DROP TABLE users;--")])
          sample_manager)
     = [[VStr "x'; DROP TABLE users;--"]].
Proof.
  destruct (select_text_ignores_filter_values
              [("table", VStr "users");
               ("name", VStr "x'; DROP TABLE users;--")]
              [("table", VStr "users"); ("name", VStr "x")]
              sample_manager sample_manager eq_refl eq_refl eq_refl)
    as [E F].
  destruct (F "*" eq_refl eq_refl) as (T & P & _).
  split; [exact E|]. split; [exact T | exact P].
Defined.

(** Alice of a@x.com is row 1; row 3 is an Alice too, but of another
    address, and is left out. *)
Lemma select_returns_rows_matching_every_filter_on_sample :
  fst (select [("table", VStr "users"); ("name", VStr "Alice");
               ("email", VStr "a@x.com")] sample_manager)
  = Ok [[VInt 1; VStr "Alice"; VStr "a@x.com"]]
  /\ fst (select [("table", VStr "users"); ("name", VStr "Zoe")]
            sample_manager)
     = Ok [].
Proof.
  split.
  - exact (proj1 (select_returns_rows_matching_every_filter
                    [("table", VStr "users"); ("name", VStr "Alice");
                     ("email", VStr "a@x.com")]
                    sample_manager "users"
                    (users_table [(1%Z, [VStr "Alice"; VStr "a@x.com"]);
                                  (2%Z, [VStr "Bob"; VStr "b@x.com"]);
                                  (3%Z, [VStr "Alice"; VStr "c@x.com"])])
                    eq_refl eq_refl eq_refl eq_refl eq_refl eq_refl)).
  - exact (proj1 (select_returns_rows_matching_every_filter
                    [("table", VStr "users"); ("name", VStr "Zoe")]
                    sample_manager "users"
                    (users_table [(1%Z, [VStr "Alice"; VStr "a@x.com"]);
                                  (2%Z, [VStr "Bob"; VStr "b@x.com"]);
                                  (3%Z, [VStr "Alice"; VStr "c@x.com"])])
                    eq_refl eq_refl eq_refl eq_refl eq_refl eq_refl)).
Defined.

(** [select(table="users")] on an empty table. *)
Example select_all_of_empty_table :
  fst (@select store empty_driver _ [("table", VStr "users")] empty_manager)
  = Ok [].
Proof. reflexivity. Qed.

(** There is no table [orders]: the store rejects all three
    statements. *)
Lemma rejected_statement_is_rolled_back_and_reraised_on_sample :
  rolled_back_and_reraised
    (insert [("table", VStr "orders"); ("total", VInt 3)]) sample_manager
    "INSERT INTO orders (total) VALUES (?)" [VInt 3]
    (OperationalError "no such table: orders")
  /\ rolled_back_and_reraised
       (update [("table", VStr "orders");
                ("data", VDict [(VStr "total", VInt 4)]); ("id", VInt 1)])
       sample_manager
       "UPDATE orders SET total = ? WHERE id = ?" [VInt 4; VInt 1]
       (OperationalError "no such table: orders")
  /\ rolled_back_and_reraised
       (delete [("table", VStr "orders"); ("id", VInt 1)]) sample_manager
       "DELETE FROM orders WHERE id = ?" [VInt 1]
       (OperationalError "no such table: orders").
Proof.
  split; [|split].
  - apply (proj1 (rejected_statement_is_rolled_back_and_reraised
                    [("table", VStr "orders"); ("total", VInt 3)]
                    sample_manager _ _ _)).
    split; reflexivity.
  - apply (proj1 (proj2 (rejected_statement_is_rolled_back_and_reraised
                           [("table", VStr "orders");
                            ("data", VDict [(VStr "total", VInt 4)]);
                            ("id", VInt 1)]
                           sample_manager _ _ _))).
    split; reflexivity.
  - apply (proj2 (proj2 (rejected_statement_is_rolled_back_and_reraised
                           [("table", VStr "orders"); ("id", VInt 1)]
                           sample_manager _ _ _))).
    split; reflexivity.
Defined.

Lemma insert_requires_data_and_binds_it_on_sample :
  insert [("table", VStr "users")] sample_manager
  = (Raise (ValueError msg_insert_no_data), sample_manager)
  /\ hd_error
       (issued (insert [("table", VStr "users"); ("name", VStr "Carol");
                        ("email", VStr "c@y.org")]) sample_manager)
     = Some (Execute "INSERT INTO users (name, email) VALUES (?, ?)"
               [VStr "Carol"; VStr "c@y.org"])
  /\ fst (insert [("table", VStr "users"); ("name", VStr "Carol");
                  ("email", VStr "c@y.org")] sample_manager)
     = Ok (VInt 4).
Proof.
  destruct (insert_requires_data_and_binds_it
              [("table", VStr "users")]
              [("table", VStr "users"); ("name", VStr "Carol");
               ("email", VStr "c@y.org")]
              sample_manager eq_refl ltac:(discriminate) eq_refl)
    as [[E _] (I & _ & R)].
  split; [exact E|]. split; [exact I|].
  exact (f_equal fst (R eq_refl)).
Defined.

(** The scenario of the specification, on tables that are still
    empty. *)
Lemma insert_then_select_by_id_round_trip_on_empty :
  exists n r,
    VInt 1 = VInt n
    /\ fst (@select store empty_driver _
              [("table", VStr "users"); ("id", VInt 1)]
              (snd (@insert store empty_driver _
                      [("table", VStr "users"); ("name", VStr "Alice");
                       ("email", VStr "a@x.com")] empty_manager)))
       = Ok [VInt n :: r]
    /\ (forall k v,
           In (k, v) [("name", VStr "Alice"); ("email", VStr "a@x.com")] ->
           column (users_table []) k (VInt n :: r) = v)
    /\ (get "id" [("table", VStr "users"); ("name", VStr "Alice");
                  ("email", VStr "a@x.com")] = None ->
        (forall m, In m (map fst (t_rows (users_table []))) -> (0 < m)%Z) ->
        (0 < n)%Z).
Proof.
  exact (@insert_then_select_by_id_round_trip sqlite_SqlEq empty_disk _
           [("table", VStr "users"); ("name", VStr "Alice");
            ("email", VStr "a@x.com")]
           empty_manager "users" (users_table []) (VInt 1)
           eq_refl eq_refl eq_refl eq_refl eq_refl eq_refl).
Defined.

Example alice_round_trip :
  let inserted :=
    @insert store empty_driver _
      [("table", VStr "users"); ("name", VStr "Alice");
       ("email", VStr "a@x.com")] empty_manager in
  fst inserted = Ok (VInt 1)
  /\ fst (@select store empty_driver _
            [("table", VStr "users"); ("id", VInt 1)] (snd inserted))
     = Ok [[VInt 1; VStr "Alice"; VStr "a@x.com"]].
Proof. split; reflexivity. Qed.

(** No user 999; user 2 is Bob; password 1 belongs to user 2. *)
Lemma not_found_iff_empty_result_on_sample :
  fst (get_user "src/data/api.db3" 999)
  = Raise (HTTPException 404 "User not found")
  /\ fst (get_user "src/data/api.db3" 2)
     = Ok {| User_id := 2; User_name := "Bob"; User_email := "b@x.com" |}
  /\ fst (get_password "src/data/api.db3" 1)
     = Ok {| Password_id := 1; Password_user_id := 2;
             Password_password_hash := "5f4dcc3b" |}.
Proof.
  split; [|split].
  - apply (proj1 (proj1 (not_found_iff_empty_result "src/data/api.db3" 999))).
    reflexivity.
  - exact (proj2 (proj2 (proj1
             (not_found_iff_empty_result "src/data/api.db3" 2)))
             [VInt 2; VStr "Bob"; VStr "b@x.com"] [] eq_refl).
  - exact (proj2 (proj2 (proj2
             (not_found_iff_empty_result "src/data/api.db3" 1)))
             [VInt 1; VStr "5f4dcc3b"; VInt 2] [] eq_refl).
Defined.

Example update_parameters_on_sample :
  bound_params
    (issued (update [("table", VStr "users");
                     ("data", VDict [(VStr "a", VInt 1); (VStr "b", VInt 2)]);
                     ("id", VInt 5)]) sample_manager)
  = [[VInt 1; VInt 2; VInt 5]].
Proof. reflexivity. Qed.

Example exit_on_sample :
  calls (snd (with_ sample_manager
                (insert [("table", VStr "orders"); ("total", VInt 3)])))
  = [Execute "INSERT INTO orders (total) VALUES (?)" [VInt 3];
     Rollback; Rollback; Commit]
  /\ calls (snd (with_ sample_manager
                   (select [("table", VStr "users"); ("id", VInt 2)])))
     = [Execute "SELECT * FROM users WHERE id = ?" [VInt 2];
        Fetchall; Commit].
Proof. split; reflexivity. Qed.

(** *** More of the code on the sample database *)

Lemma update_requires_data_dict_on_sample :
  update [("table", VStr "users"); ("id", VInt 1)] sample_manager
  = (Raise (ValueError msg_update_data), sample_manager)
  /\ update [("table", VStr "users"); ("data", VStr "name"); ("id", VInt 1)]
       sample_manager
     = (Raise (ValueError msg_update_data), sample_manager).
Proof.
  split.
  - exact (proj1 (update_requires_data_dict
                    [("table", VStr "users"); ("id", VInt 1)]
                    sample_manager eq_refl (or_introl eq_refl))).
  - exact (proj1 (update_requires_data_dict
                    [("table", VStr "users"); ("data", VStr "name");
                     ("id", VInt 1)]
                    sample_manager eq_refl
                    (or_intror (or_intror
                       (ex_intro _ (VStr "name") (conj eq_refl eq_refl)))))).
Defined.

Lemma write_text_ignores_values_on_sample :
  statements
    (issued (insert [("table", VStr "users");
                     ("name", VStr "x'); DROP TABLE users;--")])
       sample_manager)
  = statements
      (issued (insert [("table", VStr "users"); ("name", VStr "Dan")])
         sample_manager)
  /\ statements
       (issued (delete [("table", VStr "users"); ("name", VStr "' OR 1=1")])
          sample_manager)
     = statements
         (issued (delete [("table", VStr "users"); ("name", VStr "Dan")])
            sample_manager).
Proof.
  split.
  - exact (proj1 (write_text_ignores_values
                    [("table", VStr "users");
                     ("name", VStr "x'); DROP TABLE users;--")]
                    [("table", VStr "users"); ("name", VStr "Dan")]
                    sample_manager sample_manager eq_refl) eq_refl).
  - exact (proj2 (proj2 (write_text_ignores_values
                    [("table", VStr "users"); ("name", VStr "' OR 1=1")]
                    [("table", VStr "users"); ("name", VStr "Dan")]
                    sample_manager sample_manager eq_refl)) eq_refl).
Defined.

Lemma delete_sends_one_filtered_statement_on_sample :
  hd_error
    (issued (delete [("table", VStr "users"); ("name", VStr "Alice");
                     ("email", VStr "c@x.com")]) sample_manager)
  = Some (Execute "DELETE FROM users WHERE name = ? AND email = ?"
            [VStr "Alice"; VStr "c@x.com"])
  /\ fst (delete [("table", VStr "users"); ("name", VStr "Alice");
                  ("email", VStr "c@x.com")] sample_manager)
     = Ok 1%Z.
Proof.
  destruct (delete_sends_one_filtered_statement
              [("table", VStr "users"); ("name", VStr "Alice");
               ("email", VStr "c@x.com")]
              sample_manager eq_refl ltac:(discriminate))
    as (I & _ & R).
  split; [exact I | exact (f_equal fst (R eq_refl))].
Defined.

Lemma update_sends_one_filtered_statement_on_sample :
  hd_error
    (issued (update [("table", VStr "users");
                     ("data", VDict [(VStr "name", VStr "Robert");
                                     (VStr "email", VStr "r@x.com")]);
                     ("id", VInt 2)]) sample_manager)
  = Some (Execute "UPDATE users SET name = ?, email = ? WHERE id = ?"
            [VStr "Robert"; VStr "r@x.com"; VInt 2])
  /\ fst (update [("table", VStr "users");
                  ("data", VDict [(VStr "name", VStr "Robert");
                                  (VStr "email", VStr "r@x.com")]);
                  ("id", VInt 2)] sample_manager)
     = Ok 1%Z.
Proof.
  destruct (update_sends_one_filtered_statement
              [("table", VStr "users");
               ("data", VDict [(VStr "name", VStr "Robert");
                               (VStr "email", VStr "r@x.com")]);
               ("id", VInt 2)]
              sample_manager
              [(VStr "name", VStr "Robert"); (VStr "email", VStr "r@x.com")]
              eq_refl eq_refl ltac:(discriminate) ltac:(discriminate))
    as (I & R).
  split; [exact I | exact (f_equal fst (R eq_refl))].
Defined.

Lemma select_rejects_options_that_are_not_strings_on_sample :
  (exists msg,
      select [("table", VStr "users"); ("options", VList [VStr "id"; VInt 2])]
        sample_manager
      = (Raise (TypeError msg), sample_manager))
  /\ issued
       (select [("table", VStr "users");
                ("options", VList [VStr "id"; VInt 2])]) sample_manager
     = [].
Proof.
  apply (select_rejects_options_that_are_not_strings
           [("table", VStr "users"); ("options", VList [VStr "id"; VInt 2])]
           sample_manager (VList [VStr "id"; VInt 2]) eq_refl eq_refl).
  right. right. right. exists [VStr "id"; VInt 2], (VInt 2).
  split; [reflexivity|]. split; [right; left; reflexivity | discriminate].
Defined.

Lemma rejected_statement_inside_with_block_on_sample :
  calls (snd (with_ sample_manager
                (delete [("table", VStr "orders"); ("id", VInt 1)])))
  = [Execute "DELETE FROM orders WHERE id = ?" [VInt 1];
     Rollback; Rollback; Commit]
  /\ calls (snd (with_ sample_manager
                   (select [("table", VStr "orders"); ("id", VInt 1)])))
     = [Execute "SELECT * FROM orders WHERE id = ?" [VInt 1];
        Rollback; Commit].
Proof.
  split.
  - apply (proj1 (proj2 (proj2 (rejected_statement_inside_with_block
                    [("table", VStr "orders"); ("id", VInt 1)]
                    sample_manager
                    "DELETE FROM orders WHERE id = ?" [VInt 1]
                    (OperationalError "no such table: orders"))))).
    split; reflexivity.
  - apply (proj2 (proj2 (proj2 (rejected_statement_inside_with_block
                    [("table", VStr "orders"); ("id", VInt 1)]
                    sample_manager
                    "SELECT * FROM orders WHERE id = ?" [VInt 1]
                    (OperationalError "no such table: orders"))))).
    split; reflexivity.
Defined.

Lemma listings_map_every_row_on_sample :
  fst (get_users "src/data/api.db3")
  = Ok [ {| User_id := 1; User_name := "Alice"; User_email := "a@x.com" |};
         {| User_id := 2; User_name := "Bob"; User_email := "b@x.com" |};
         {| User_id := 3; User_name := "Alice"; User_email := "c@x.com" |} ]
  /\ fst (get_passwords "src/data/api.db3")
     = Ok [ {| Password_id := 1; Password_user_id := 2;
               Password_password_hash := "5f4dcc3b" |} ].
Proof.
  split.
  - apply (proj1 (proj1 (@listings_map_every_row store sample_driver _ _
                           "src/data/api.db3"))
             [[VInt 1; VStr "Alice"; VStr "a@x.com"];
              [VInt 2; VStr "Bob"; VStr "b@x.com"];
              [VInt 3; VStr "Alice"; VStr "c@x.com"]] _ eq_refl).
    repeat (constructor; [reflexivity|]). constructor.
  - apply (proj1 (proj2 (@listings_map_every_row store sample_driver _ _
                           "src/data/api.db3"))
             [[VInt 1; VStr "5f4dcc3b"; VInt 2]] _ eq_refl).
    repeat (constructor; [reflexivity|]). constructor.
Defined.

Lemma table_argument_may_stand_anywhere_on_sample :
  select [("name", VStr "Alice"); ("table", VStr "users");
          ("email", VStr "a@x.com")] sample_manager
  = select [("table", VStr "users"); ("name", VStr "Alice");
            ("email", VStr "a@x.com")] sample_manager.
Proof.
  exact (proj1 (table_argument_may_stand_anywhere
                  [("name", VStr "Alice"); ("table", VStr "users");
                   ("email", VStr "a@x.com")]
                  sample_manager (VStr "users") eq_refl)).
Defined.

